(** * Phonebook backend (phonebook/app.py): the contact service over its
      relational store

    A shallow embedding of the Flask views of [app.py] -- [add_contact],
    [update_contact], [delete_contact], [toggle_favorite], the row loop of
    [import_contacts] and the read helper [get_contact_with_methods] --
    over an explicit model of the two tables of [init_db].

    Modelling decisions, all on the side of the libraries the file calls:
    - a Python [str] is the list of its code points (each below
      0x110000); a [str] decoded from JSON may hold lone surrogates, which
      the sqlite3 module cannot encode when it binds the text;
    - a decoded JSON body is a [json] value; JSON numbers are integers
      (fractional numbers are not represented);
    - a Python exception that no view catches ends the request with status
      500 and nothing committed: the connection is dropped with its open
      transaction;
    - [sqlite3.connect] gives a connection on which foreign-key enforcement
      is off, the engine's default; [app.py] issues no PRAGMA, so this is
      the state of every connection it uses.  The engine model keeps the
      switch so that both behaviours can be compared;
    - the ids the store hands out are unbounded integers (the 64-bit
      ceiling of the engine is not modelled); an integer that comes with a
      request is bound like any Python [int] and must fit in 64 bits. *)

From Stdlib Require Import ZArith NArith List Bool Lia Ascii String DecimalString.
Import ListNotations.

Open Scope Z_scope.

(* ------------------------------------------------------------------ *)
(** ** Python strings *)

Module PyStr.

(** A [str]: its code points. *)
Definition pystr := list N.

(** A literal of the source, for ASCII text. *)
Definition lit (s : string) : pystr :=
  List.map N_of_ascii (list_ascii_of_string s).

Fixpoint eqb (a b : pystr) : bool :=
  match a, b with
  | [], [] => true
  | x :: a', y :: b' => N.eqb x y && eqb a' b'
  | _, _ => false
  end.

(** [str.isspace] on one character, the set [str.strip()] removes. *)
Definition is_space (c : N) : bool :=
  ((9 <=? c) && (c <=? 13) || (28 <=? c) && (c <=? 32)
   || (c =? 133) || (c =? 160) || (c =? 5760)
   || (8192 <=? c) && (c <=? 8202)
   || (c =? 8232) || (c =? 8233) || (c =? 8239) || (c =? 8287)
   || (c =? 12288))%N.

Fixpoint lstrip (s : pystr) : pystr :=
  match s with
  | c :: s' => if is_space c then lstrip s' else s
  | [] => []
  end.

Definition rstrip (s : pystr) : pystr := rev (lstrip (rev s)).

(** [s.strip()] *)
Definition strip (s : pystr) : pystr := rstrip (lstrip s).

(** Truth value of a [str]: non-empty. *)
Definition nonempty (s : pystr) : bool :=
  match s with [] => false | _ => true end.

(** A surrogate code point (U+D800 to U+DFFF). *)
Definition is_surrogate (c : N) : bool := ((55296 <=? c) && (c <=? 57343))%N.

(** A text that has a UTF-8 encoding: no surrogate in it. *)
Definition encodable (s : pystr) : bool :=
  forallb (fun c => negb (is_surrogate c)) s.

(** [str(n)] for an [int], also the text the engine stores for an
    integer that lands in a TEXT column. *)
Definition of_int (z : Z) : pystr := lit (NilZero.string_of_int (Z.to_int z)).

End PyStr.
Import PyStr.

(* ------------------------------------------------------------------ *)
(** ** Decoded JSON and the Python operations the views apply to it *)

#[warnings="-register-all"]
Inductive json : Type :=
| JNull
| JBool (b : bool)
| JInt (z : Z)
| JStr (s : pystr)
| JArr (items : list json)
| JObj (fields : list (pystr * json)).

(** Exceptions the views can run into. *)
Inductive exn : Type :=
| AttributeError
| OverflowError
| BindingError
| IntegrityError
| KeyError
| TypeError
| UnicodeEncodeError.

Inductive result (A : Type) : Type :=
| Ok (a : A)
| Raise (e : exn).
Arguments Ok {A} a.
Arguments Raise {A} e.

Definition bind {A B} (r : result A) (k : A -> result B) : result B :=
  match r with
  | Ok a => k a
  | Raise e => Raise e
  end.

Notation "x <- c ;; k" := (bind c (fun x => k))
  (at level 61, c at next level, right associativity).

(** Truth value of a decoded JSON value ([if not data], [not m.get(..)]). *)
Definition truthy (j : json) : bool :=
  match j with
  | JNull => false
  | JBool b => b
  | JInt z => negb (z =? 0)
  | JStr s => nonempty s
  | JArr l => match l with [] => false | _ => true end
  | JObj l => match l with [] => false | _ => true end
  end.

(** Lookup in a [dict]; the field list holds one binding per key, the
    first one found is the dict's. *)
Fixpoint lookup (k : pystr) (fields : list (pystr * json)) : option json :=
  match fields with
  | [] => None
  | (k', v) :: rest => if eqb k k' then Some v else lookup k rest
  end.

(** [d.get(k, default)]: only a dict has [get]. *)
Definition py_get (d : json) (k : pystr) (default : json) : result json :=
  match d with
  | JObj fields =>
      match lookup k fields with
      | Some v => Ok v
      | None => Ok default
      end
  | _ => Raise AttributeError
  end.

(** [d[k]] *)
Definition py_index (d : json) (k : pystr) : result json :=
  match d with
  | JObj fields =>
      match lookup k fields with
      | Some v => Ok v
      | None => Raise KeyError
      end
  | _ => Raise TypeError
  end.

(** [x.strip()]: only a str has [strip]. *)
Definition py_strip (x : json) : result pystr :=
  match x with
  | JStr s => Ok (strip s)
  | _ => Raise AttributeError
  end.

(* ------------------------------------------------------------------ *)
(** ** The store: the two tables of [init_db] *)

(** A row of [contacts (id, name, address, is_favorite)]. *)
Record contact_row : Type := mk_contact {
  c_id : Z;
  c_name : pystr;
  c_address : option pystr;
  c_is_favorite : Z
}.

(** A row of [contact_methods (id, contact_id, method_type, value)]. *)
Record method_row : Type := mk_method {
  m_id : Z;
  m_contact_id : Z;
  m_method_type : pystr;
  m_value : pystr
}.

(** The database file: both tables in rowid order and, for each, the
    largest rowid AUTOINCREMENT has handed out ([sqlite_sequence]). *)
Record database : Type := mk_db {
  contacts : list contact_row;
  contact_methods : list method_row;
  seq_contacts : Z;
  seq_contact_methods : Z
}.

(** The two empty tables [init_db] creates. *)
Definition empty_db : database := mk_db [] [] 0 0.

(** [init_db()]: a file that is already there is left alone. *)
Definition init_db (existing : option database) : database :=
  match existing with
  | Some file => file
  | None => empty_db
  end.

(** A value bound to a [?] of a statement. *)
Inductive sqlval : Type :=
| SNull
| SInteger (z : Z)
| SText (s : pystr).

Module Engine.

(** A connection: its view of the data inside the open transaction and
    the foreign-key switch. *)
Record conn : Type := mk_conn {
  work : database;
  foreign_keys : bool
}.

(** [sqlite3.connect(DB_PATH)] *)
Definition connect (file : database) : conn := mk_conn file false.

(** [conn.commit()]: the file after it. *)
Definition commit (c : conn) : database := work c.

(** The same connection after [PRAGMA foreign_keys = ON]. *)
Definition with_foreign_keys (c : conn) : conn := mk_conn (work c) true.

Definition max_rowid (ids : list Z) : Z := fold_right Z.max 0 ids.

(** The rowid AUTOINCREMENT picks: one more than the largest ever used. *)
Definition next_rowid (seq : Z) (ids : list Z) : Z :=
  Z.max seq (max_rowid ids) + 1.

(** An integer that fits the 64 bits of an SQLite INTEGER. *)
Definition int64 (z : Z) : bool := (- 2 ^ 63 <=? z) && (z <? 2 ^ 63).

(** Binding a Python [int]. *)
Definition bind_int (z : Z) : result sqlval :=
  if int64 z then Ok (SInteger z) else Raise OverflowError.

(** Binding a Python [str]: it is encoded as UTF-8. *)
Definition bind_text (s : pystr) : result sqlval :=
  if encodable s then Ok (SText s) else Raise UnicodeEncodeError.

(** Binding a [str] or [None]. *)
Definition bind_optional_text (o : option pystr) : result sqlval :=
  match o with
  | Some s => bind_text s
  | None => Ok SNull
  end.

(** How the sqlite3 module binds a Python value. *)
Definition bind_param (j : json) : result sqlval :=
  match j with
  | JNull => Ok SNull
  | JBool b => Ok (SInteger (if b then 1 else 0))
  | JInt z => bind_int z
  | JStr s => bind_text s
  | JArr _ => Raise BindingError
  | JObj _ => Raise BindingError
  end.

(** A value stored in a [TEXT NOT NULL] column. *)
Definition text_not_null (v : sqlval) : result pystr :=
  match v with
  | SNull => Raise IntegrityError
  | SInteger z => Ok (of_int z)
  | SText s => Ok s
  end.

Definition has_contact (d : database) (id : Z) : bool :=
  existsb (fun r => c_id r =? id) (contacts d).

(** [INSERT INTO contacts (name, address) VALUES (?, ?)], then
    [cursor.lastrowid]. *)
Definition insert_contact (c : conn) (name : pystr) (address : option pystr)
  : result (conn * Z) :=
  bound_name <- bind_text name ;;
  bound_address <- bind_optional_text address ;;
  let d := work c in
  let id := next_rowid (seq_contacts d) (List.map c_id (contacts d)) in
  Ok (mk_conn (mk_db (contacts d ++ [mk_contact id name address 0])
                     (contact_methods d) id (seq_contact_methods d))
              (foreign_keys c),
      id).

(** [INSERT INTO contact_methods (contact_id, method_type, value)
     VALUES (?, ?, ?)], the type and the value already bound.  The
    [contact_id] is an id of the store whenever the views get here:
    [cursor.lastrowid], or the id a SELECT on this connection was bound
    with. *)
Definition insert_method (c : conn) (contact_id : Z) (ty v : sqlval)
  : result conn :=
  let d := work c in
  ty' <- text_not_null ty ;;
  v' <- text_not_null v ;;
  if foreign_keys c && negb (has_contact d contact_id)
  then Raise IntegrityError
  else
    let id := next_rowid (seq_contact_methods d)
                         (List.map m_id (contact_methods d)) in
    Ok (mk_conn (mk_db (contacts d)
                       (contact_methods d ++ [mk_method id contact_id ty' v'])
                       (seq_contacts d) id)
                (foreign_keys c)).

(** [SELECT 1 FROM contacts WHERE id = ?] with [fetchone()]. *)
Definition select_one (c : conn) (id : Z) : result (option Z) :=
  bound_id <- bind_int id ;;
  Ok (if has_contact (work c) id then Some 1 else None).

(** [SELECT is_favorite FROM contacts WHERE id = ?] with [fetchone()]. *)
Definition select_is_favorite (c : conn) (id : Z) : result (option Z) :=
  bound_id <- bind_int id ;;
  Ok (option_map c_is_favorite
        (find (fun r => c_id r =? id) (contacts (work c)))).

(** [SELECT method_type, value FROM contact_methods WHERE contact_id = ?]
    with [fetchall()], for the id of a row just read. *)
Definition select_methods (c : conn) (contact_id : Z)
  : list (pystr * pystr) :=
  List.map (fun m => (m_method_type m, m_value m))
    (filter (fun m => m_contact_id m =? contact_id)
            (contact_methods (work c))).

(** [UPDATE contacts SET name = ?, address = ? WHERE id = ?] *)
Definition update_name_address (c : conn) (name : pystr)
           (address : option pystr) (id : Z) : result conn :=
  bound_name <- bind_text name ;;
  bound_address <- bind_optional_text address ;;
  bound_id <- bind_int id ;;
  let d := work c in
  Ok (mk_conn (mk_db (List.map (fun r => if c_id r =? id
                                    then mk_contact (c_id r) name address
                                                    (c_is_favorite r)
                                    else r) (contacts d))
                     (contact_methods d) (seq_contacts d)
                     (seq_contact_methods d))
              (foreign_keys c)).

(** [UPDATE contacts SET is_favorite = ? WHERE id = ?] *)
Definition update_is_favorite (c : conn) (status : Z) (id : Z)
  : result conn :=
  bound_status <- bind_int status ;;
  bound_id <- bind_int id ;;
  let d := work c in
  Ok (mk_conn (mk_db (List.map (fun r => if c_id r =? id
                                    then mk_contact (c_id r) (c_name r)
                                                    (c_address r) status
                                    else r) (contacts d))
                     (contact_methods d) (seq_contacts d)
                     (seq_contact_methods d))
              (foreign_keys c)).

(** [DELETE FROM contact_methods WHERE contact_id = ?] *)
Definition delete_methods (c : conn) (contact_id : Z) : result conn :=
  bound_id <- bind_int contact_id ;;
  let d := work c in
  Ok (mk_conn (mk_db (contacts d)
                     (filter (fun m => negb (m_contact_id m =? contact_id))
                             (contact_methods d))
                     (seq_contacts d) (seq_contact_methods d))
              (foreign_keys c)).

(** [DELETE FROM contacts WHERE id = ?], then [cursor.rowcount].  The
    [ON DELETE CASCADE] of [contact_methods.contact_id] acts only on a
    connection that enforces foreign keys. *)
Definition delete_contact_row (c : conn) (id : Z) : result (conn * Z) :=
  bound_id <- bind_int id ;;
  let d := work c in
  let gone := filter (fun r => c_id r =? id) (contacts d) in
  let kept := filter (fun r => negb (c_id r =? id)) (contacts d) in
  let methods :=
    if foreign_keys c && negb (Z.of_nat (List.length gone) =? 0)
    then filter (fun m => negb (m_contact_id m =? id)) (contact_methods d)
    else contact_methods d in
  Ok (mk_conn (mk_db kept methods (seq_contacts d) (seq_contact_methods d))
              (foreign_keys c),
      Z.of_nat (List.length gone)).

End Engine.
Import Engine.

(* ------------------------------------------------------------------ *)
(** ** Responses *)

(** The texts the views answer with, by what they say. *)
Inductive message : Type :=
| EmptyBody            (* the request body must not be empty *)
| EmptyName            (* the name must not be empty *)
| NeedOneMethod        (* at least one contact method is needed *)
| MethodNeedsTypeValue (* every method must carry type and value *)
| MethodsNotArray      (* methods must be an array *)
| NoSuchContact        (* the contact does not exist *)
| Deleted              (* deleted *)
| MissingColumns       (* required columns are missing *)
| ParseFailed (e : exn) (* the file could not be parsed *).

(** The dict a view returns for one contact. *)
Record contact_view : Type := mk_view {
  v_id : Z;
  v_name : pystr;
  v_address : option pystr;
  v_is_favorite : bool;
  v_methods : list json
}.

Inductive payload : Type :=
| Error (m : message)
| Message (m : message)
| Contact (v : contact_view)
| Favorite (is_favorite : bool)
| Imported (count : Z)
| Unhandled (e : exn).

(** [jsonify(..), status] *)
Definition response : Type := payload * Z.



Definition ParseError (r : response) : Prop :=
  exists e, r = (Error (ParseFailed e), 400).

(** A view as the framework runs it: an exception that escapes becomes
    a 500 and the file keeps what was last committed. *)
Definition serve (file : database) (r : result (response * database))
  : response * database :=
  match r with
  | Ok out => out
  | Raise e => ((Unhandled e, 500), file)
  end.

(* ------------------------------------------------------------------ *)
(** ** The views *)

Section Views.

(** [str(x)] for a list or a dict (Python's [repr] of a container),
    which [app.py] can reach only through a non-text [address]. *)
Variable py_repr : json -> pystr.

(** [str(x)] *)
Definition py_str (x : json) : pystr :=
  match x with
  | JNull => lit "None"
  | JBool true => lit "True"
  | JBool false => lit "False"
  | JInt z => of_int z
  | JStr s => s
  | _ => py_repr x
  end.

(** [str(raw_address).strip() if raw_address is not None else None] *)
Definition coerce_address (raw_address : json) : option pystr :=
  match raw_address with
  | JNull => None
  | _ => Some (strip (py_str raw_address))
  end.

(** [cursor.execute("INSERT INTO contact_methods ...",
     (contact_id, m['type'], m['value']))] *)
Definition execute_insert_method (c : conn) (contact_id : Z) (m : json)
  : result conn :=
  ty <- py_index m (lit "type") ;;
  v <- py_index m (lit "value") ;;
  ty' <- bind_param ty ;;
  v' <- bind_param v ;;
  insert_method c contact_id ty' v'.

(** [get_contact_with_methods(cursor, contact_row)] *)
Definition get_contact_with_methods (c : conn) (row : contact_row)
  : contact_view :=
  let methods := select_methods c (c_id row) in
  mk_view (c_id row) (c_name row) (c_address row)
          (negb (c_is_favorite row =? 0))
          (List.map (fun m => JObj [(lit "type", JStr (fst m));
                               (lit "value", JStr (snd m))]) methods).

(** [GET /contacts] *)
Definition get_contacts (file : database) : list contact_view :=
  let conn := connect file in
  List.map (get_contact_with_methods conn) (contacts (work conn)).

(** [GET /contacts/favorites] *)
Definition get_favorites (file : database) : list contact_view :=
  let conn := connect file in
  List.map (get_contact_with_methods conn)
      (filter (fun r => c_is_favorite r =? 1) (contacts (work conn))).

(** The check loop of [add_contact]: [true] when it runs to its end,
    [false] when it returns the 400 at some entry. *)
Fixpoint methods_all_valid (methods : list json) : result bool :=
  match methods with
  | [] => Ok true
  | m :: rest =>
      ty <- py_get m (lit "type") JNull ;;
      if negb (truthy ty) then Ok false
      else
        v <- py_get m (lit "value") JNull ;;
        if negb (truthy v) then Ok false
        else methods_all_valid rest
  end.

(** The insert loop of [add_contact]. *)
Fixpoint insert_all_methods (c : conn) (contact_id : Z)
         (methods : list json) : result conn :=
  match methods with
  | [] => Ok c
  | m :: rest =>
      c' <- execute_insert_method c contact_id m ;;
      insert_all_methods c' contact_id rest
  end.

(** [POST /contacts] *)
Definition add_contact (data : json) (file : database)
  : response * database :=
  serve file (
    if negb (truthy data) then Ok ((Error EmptyBody, 400), file)
    else
      raw_name <- py_get data (lit "name") (JStr []) ;;
      name <- py_strip raw_name ;;
      raw_address <- py_get data (lit "address") JNull ;;
      let address := coerce_address raw_address in
      methods <- py_get data (lit "methods") (JArr []) ;;
      if negb (nonempty name) then Ok ((Error EmptyName, 400), file)
      else
        match methods with
        | JArr ((_ :: _) as ms) =>
            valid <- methods_all_valid ms ;;
            if negb valid then Ok ((Error MethodNeedsTypeValue, 400), file)
            else
              let conn := connect file in
              inserted <- insert_contact conn name address ;;
              let (conn1, contact_id) := inserted in
              conn2 <- insert_all_methods conn1 contact_id ms ;;
              Ok ((Contact (mk_view contact_id name address false ms), 201),
                  commit conn2)
        | _ => Ok ((Error NeedOneMethod, 400), file)
        end).

(** The insert loop of [update_contact]: an entry without a true
    [type] and a true [value] is passed over. *)
Fixpoint insert_wellformed_methods (c : conn) (contact_id : Z)
         (methods : list json) : result conn :=
  match methods with
  | [] => Ok c
  | m :: rest =>
      ty <- py_get m (lit "type") JNull ;;
      keep <- (if truthy ty
               then v <- py_get m (lit "value") JNull ;; Ok (truthy v)
               else Ok false) ;;
      c' <- (if keep then execute_insert_method c contact_id m else Ok c) ;;
      insert_wellformed_methods c' contact_id rest
  end.

(** Truth value of what [fetchone()] gave: [None], or a row, which as a
    tuple of one column is true whatever it holds. *)
Definition row_truthy (row : option Z) : bool :=
  match row with
  | Some _ => true
  | None => false
  end.

(** [PUT /contacts/<int:contact_id>] *)
Definition update_contact (contact_id : Z) (data : json) (file : database)
  : response * database :=
  serve file (
    if negb (truthy data) then Ok ((Error EmptyBody, 400), file)
    else
      raw_name <- py_get data (lit "name") (JStr []) ;;
      name <- py_strip raw_name ;;
      raw_address <- py_get data (lit "address") JNull ;;
      let address := coerce_address raw_address in
      methods <- py_get data (lit "methods") (JArr []) ;;
      if negb (nonempty name) then Ok ((Error EmptyName, 400), file)
      else
        match methods with
        | JArr ms =>
            let conn := connect file in
            exists_ <- select_one conn contact_id ;;
            if negb (row_truthy exists_)
            then Ok ((Error NoSuchContact, 404), file)
            else
              conn1 <- update_name_address conn name address contact_id ;;
              conn2 <- delete_methods conn1 contact_id ;;
              conn3 <- insert_wellformed_methods conn2 contact_id ms ;;
              Ok ((Contact (mk_view contact_id name address
                                    (row_truthy exists_) ms), 200),
                  commit conn3)
        | _ => Ok ((Error MethodsNotArray, 400), file)
        end).

(** [DELETE /contacts/<int:contact_id>] *)
Definition delete_contact (contact_id : Z) (file : database)
  : response * database :=
  serve file (
    let conn := connect file in
    deletion <- delete_contact_row conn contact_id ;;
    let (conn1, rowcount) := deletion in
    let file' := commit conn1 in
    let deleted := 0 <? rowcount in
    if negb deleted then Ok ((Error NoSuchContact, 404), file')
    else Ok ((Message Deleted, 200), file')).

(** [PUT /contacts/<int:contact_id>/favorite] *)
Definition toggle_favorite (contact_id : Z) (file : database)
  : response * database :=
  serve file (
    let conn := connect file in
    row <- select_is_favorite conn contact_id ;;
    match row with
    | None => Ok ((Error NoSuchContact, 404), file)
    | Some is_favorite =>
        let new_status := if is_favorite =? 1 then 0 else 1 in
        conn1 <- update_is_favorite conn new_status contact_id ;;
        Ok ((Favorite (negb (new_status =? 0)), 200), commit conn1)
    end).

End Views.

(* ------------------------------------------------------------------ *)
(** ** CSV import

    [import_contacts] from [csv.DictReader] on: its input here is the
    list of records [csv.reader] yields for the decoded text, the header
    line first. *)

Module Csv.

(** The row dict of [DictReader]: a column name bound to its cell, or
    to [None] where the record is too short.  (The surplus cells of a
    long record sit under the key [None], which no lookup by column
    name reaches.) *)
Definition row := list (pystr * option pystr).

(** [d[k] = v] *)
Fixpoint dict_set (k : pystr) (v : option pystr) (d : row) : row :=
  match d with
  | [] => [(k, v)]
  | (k', v') :: rest =>
      if eqb k k' then (k, v) :: rest else (k', v') :: dict_set k v rest
  end.

(** [d.get(k)] *)
Fixpoint dict_get (k : pystr) (d : row) : option pystr :=
  match d with
  | [] => None
  | (k', v) :: rest => if eqb k k' then v else dict_get k rest
  end.

(** [dict(zip(fieldnames, record))], then [None] for each column the
    record does not reach. *)
Definition make_row (fieldnames record : list pystr) : row :=
  fold_left (fun d kv => dict_set (fst kv) (snd kv) d)
    (combine fieldnames
       (List.map Some record
        ++ repeat None (List.length fieldnames - List.length record)))
    [].

(** [reader.fieldnames or []] *)
Definition fieldnames (records : list (list pystr)) : list pystr :=
  match records with
  | header :: _ => header
  | [] => []
  end.

(** The rows the [DictReader] iterates over: blank records are passed
    over. *)
Definition rows (records : list (list pystr)) : list row :=
  List.map (make_row (fieldnames records))
    (filter (fun r => match r with [] => false | _ => true end)
            (tl records)).

(** The four column names of the source, as code points: name
    (U+59D3 U+540D), phone (U+7535 U+8BDD), e-mail (U+90AE U+7BB1) and
    address (U+4F4F U+5740). *)
Definition col_name : pystr := [22995; 21517]%N.
Definition col_phone : pystr := [30005; 35805]%N.
Definition col_email : pystr := [37038; 31665]%N.
Definition col_address : pystr := [20303; 22336]%N.

Definition required_fields : list pystr :=
  [col_name; col_phone; col_email; col_address].

(** [required_fields.issubset(set(names))] *)
Definition has_required_fields (names : list pystr) : bool :=
  forallb (fun f => existsb (eqb f) names) required_fields.

(** [(row.get(k) or '').strip()] *)
Definition cell (r : row) (k : pystr) : pystr :=
  strip (match dict_get k r with
         | Some s => s
         | None => []
         end).

End Csv.
Import Csv.

(** [if x: cursor.execute("INSERT INTO contact_methods ...",
     (contact_id, kind, x))] *)
Definition insert_if_present (c : conn) (contact_id : Z) (kind x : pystr)
  : result conn :=
  if nonempty x
  then
    ty <- bind_text kind ;;
    v <- bind_text x ;;
    insert_method c contact_id ty v
  else Ok c.

(** The [for row in reader] loop of [import_contacts], with its
    running [count]. *)
Fixpoint import_rows (c : conn) (count : Z) (rs : list row)
  : result (conn * Z) :=
  match rs with
  | [] => Ok (c, count)
  | r :: rest =>
      let name := cell r col_name in
      if negb (nonempty name) then import_rows c count rest
      else
        let phone := cell r col_phone in
        let email := cell r col_email in
        let address := cell r col_address in
        inserted <-
          insert_contact c name (if nonempty address then Some address
                                 else None) ;;
        let (c1, contact_id) := inserted in
        c2 <- insert_if_present c1 contact_id (lit "phone") phone ;;
        c3 <- insert_if_present c2 contact_id (lit "email") email ;;
        c4 <- insert_if_present c3 contact_id (lit "address") address ;;
        import_rows c4 (count + 1) rest
  end.

(** [POST /contacts/import], once the upload is decoded. *)
Definition import_contacts (records : list (list pystr)) (file : database)
  : response * database :=
  if negb (has_required_fields (fieldnames records))
  then ((Error MissingColumns, 400), file)
  else
    let conn := connect file in
    match import_rows conn 0 (rows records) with
    | Ok (conn', count) => ((Imported count, 200), commit conn')
    | Raise e => ((Error (ParseFailed e), 400), file)
    end.

(* ------------------------------------------------------------------ *)
(** ** Operations and the states they reach *)

Section Operations.

Variable py_repr : json -> pystr.

Inductive operation : Type :=
| Create (data : json)
| Update (contact_id : Z) (data : json)
| Delete (contact_id : Z)
| ToggleFavorite (contact_id : Z)
| Import (records : list (list pystr)).

(** One request against the file. *)
Definition perform (op : operation) (file : database)
  : response * database :=
  match op with
  | Create data => add_contact py_repr data file
  | Update contact_id data => update_contact py_repr contact_id data file
  | Delete contact_id => delete_contact contact_id file
  | ToggleFavorite contact_id => toggle_favorite contact_id file
  | Import records => import_contacts records file
  end.

(** The file after a sequence of requests. *)
Definition run (ops : list operation) (file : database) : database :=
  fold_left (fun f op => snd (perform op f)) ops file.

(** A state the service can be in: some requests after [init_db]. *)
Definition reachable (file : database) : Prop :=
  exists ops, run ops empty_db = file.

End Operations.

(** No method row without its contact row. *)
Definition no_orphans (d : database) : Prop :=
  forall m, In m (contact_methods d) -> has_contact d (m_contact_id m) = true.

(** The methods stored for a contact, as the read path shows them. *)
Definition stored_methods (d : database) (contact_id : Z)
  : list (pystr * pystr) :=
  select_methods (connect d) contact_id.

(** What the read path shows of a method row. *)
Definition pair_of_method (m : method_row) : pystr * pystr :=
  (m_method_type m, m_value m).

(** The contact row with a given id. *)
Definition contact_of (d : database) (contact_id : Z) : option contact_row :=
  find (fun r => c_id r =? contact_id) (contacts d).

(** *** Requests as the interface describes them *)

(** [data.get('methods', [])] and [data.get('address')] on a body with
    the given fields. *)
Definition methods_field (fields : list (pystr * json)) : json :=
  match lookup (lit "methods") fields with
  | Some v => v
  | None => JArr []
  end.

Definition address_field (fields : list (pystr * json)) : json :=
  match lookup (lit "address") fields with
  | Some v => v
  | None => JNull
  end.

(** The address a body asks for, when its [address] is text, null or
    missing: the trimmed text, or null. *)
Definition address_text_or_null (fields : list (pystr * json)) : bool :=
  match lookup (lit "address") fields with
  | None => true
  | Some JNull => true
  | Some (JStr _) => true
  | Some _ => false
  end.

Definition body_address (fields : list (pystr * json)) : option pystr :=
  match lookup (lit "address") fields with
  | Some (JStr s) => Some (strip s)
  | _ => None
  end.

(** A text or null that can be bound. *)
Definition encodable_option (o : option pystr) : bool :=
  match o with
  | Some s => encodable s
  | None => true
  end.

(** A method entry as the data model has it: an object whose [type] and
    [value], where it carries them, are text (or null). *)
Definition text_or_null (o : option json) : bool :=
  match o with
  | None => true
  | Some JNull => true
  | Some (JStr _) => true
  | Some _ => false
  end.

Definition method_entry (m : json) : bool :=
  match m with
  | JObj fields =>
      text_or_null (lookup (lit "type") fields)
      && text_or_null (lookup (lit "value") fields)
  | _ => false
  end.

(** The [(type, value)] of an entry that has both, non-empty. *)
Definition entry_pair (m : json) : option (pystr * pystr) :=
  match m with
  | JObj fields =>
      match lookup (lit "type") fields, lookup (lit "value") fields with
      | Some (JStr ty), Some (JStr v) =>
          if nonempty ty && nonempty v then Some (ty, v) else None
      | _, _ => None
      end
  | _ => None
  end.

(** The entries of a list that have both a non-empty type and a
    non-empty value, in order. *)
Fixpoint complete_pairs (methods : list json) : list (pystr * pystr) :=
  match methods with
  | [] => []
  | m :: rest =>
      match entry_pair m with
      | Some p => p :: complete_pairs rest
      | None => complete_pairs rest
      end
  end.

(** An entry with a non-empty type and a non-empty value. *)
Definition complete_entry (m : json) : bool :=
  match entry_pair m with
  | Some _ => true
  | None => false
  end.

(** An entry whose type and value, when it has both, can be encoded. *)
Definition encodable_entry (m : json) : bool :=
  match entry_pair m with
  | Some (ty, v) => encodable ty && encodable v
  | None => true
  end.

(** The name a body carries: [data.get('name', '')] where that is
    text. *)
Definition name_is_text (fields : list (pystr * json)) : bool :=
  match lookup (lit "name") fields with
  | None => true
  | Some (JStr _) => true
  | Some _ => false
  end.

Definition name_text (fields : list (pystr * json)) : pystr :=
  match lookup (lit "name") fields with
  | Some (JStr s) => s
  | _ => []
  end.

Definition is_object (m : json) : bool :=
  match m with
  | JObj _ => true
  | _ => false
  end.


(** [m.get('type') and m.get('value')] as a truth value, for an
    object. *)
Definition has_type_and_value (m : json) : bool :=
  match m with
  | JObj fields =>
      truthy (match lookup (lit "type") fields with
              | Some v => v
              | None => JNull
              end)
      && truthy (match lookup (lit "value") fields with
                 | Some v => v
                 | None => JNull
                 end)
  | _ => false
  end.

(** What [UPDATE contacts SET is_favorite = ? WHERE id = ?] does to one
    row. *)
Definition set_favorite (status id : Z) (r : contact_row) : contact_row :=
  if c_id r =? id
  then mk_contact (c_id r) (c_name r) (c_address r) status
  else r.

(** The favorite flag of every row is 0 or 1. *)
Definition binary_flags (d : database) : Prop :=
  forall r, In r (contacts d) -> c_is_favorite r = 0 \/ c_is_favorite r = 1.

(** The favorite status of a contact as the read path shows it. *)
Definition favorite_of (d : database) (contact_id : Z) : option bool :=
  option_map (fun r => v_is_favorite (get_contact_with_methods (connect d) r))
             (contact_of d contact_id).

(** *** An import, row by row, as the interface describes it *)

(** The text a row has in a column: its cell, or the empty text when
    the row has none there. *)
Definition column (r : row) (k : pystr) : pystr :=
  match dict_get k r with
  | Some s => s
  | None => []
  end.

(** The four fields of a row, each trimmed. *)
Definition trimmed_name (r : row) : pystr := strip (column r col_name).
Definition trimmed_phone (r : row) : pystr := strip (column r col_phone).
Definition trimmed_email (r : row) : pystr := strip (column r col_email).
Definition trimmed_address (r : row) : pystr := strip (column r col_address).

(** A row that is not skipped: its trimmed name is not empty. *)
Definition kept_row (r : row) : bool := nonempty (trimmed_name r).

(** The contact a kept row makes, under the id it gets: the trimmed
    name, and the trimmed address or null when that is empty. *)
Definition row_contact (id : Z) (r : row) : contact_row :=
  mk_contact id (trimmed_name r)
    (if nonempty (trimmed_address r) then Some (trimmed_address r) else None)
    0.

(** The methods a kept row makes: one per non-empty field among phone,
    email and address, each trimmed. *)
Definition row_methods (r : row) : list (pystr * pystr) :=
  (if nonempty (trimmed_phone r) then [(lit "phone", trimmed_phone r)]
   else [])
  ++ (if nonempty (trimmed_email r) then [(lit "email", trimmed_email r)]
      else [])
  ++ (if nonempty (trimmed_address r)
      then [(lit "address", trimmed_address r)] else []).

(** The rows of an upload that are not skipped. *)
Definition kept_rows (records : list (list pystr)) : list row :=
  filter kept_row (rows records).

(** What [content.decode('utf-8')] can give: text without a surrogate,
    here for every cell of every record. *)
Definition decoded (records : list (list pystr)) : bool :=
  forallb (forallb encodable) records.

(** A row whose four trimmed fields can all be bound. *)
Definition row_encodable (r : row) : bool :=
  encodable (trimmed_name r) && encodable (trimmed_phone r)
  && encodable (trimmed_email r) && encodable (trimmed_address r).

(** The contacts of a run of kept rows, the first under id [first] and
    each next one under the following id. *)
Fixpoint imported_contacts (first : Z) (rs : list row) : list contact_row :=
  match rs with
  | [] => []
  | r :: rest => row_contact first r :: imported_contacts (first + 1) rest
  end.

(** Their methods, each with the id of its contact. *)
Fixpoint imported_methods (first : Z) (rs : list row)
  : list (Z * (pystr * pystr)) :=
  match rs with
  | [] => []
  | r :: rest =>
      List.map (pair first) (row_methods r) ++ imported_methods (first + 1) rest
  end.

(** A method row without its own id: owner, type and value. *)
Definition owner_and_pair (m : method_row) : Z * (pystr * pystr) :=
  (m_contact_id m, pair_of_method m).

(** *** The store as the read path and the invariants see it *)

(** The dict [get_contact_with_methods] shows for a stored method. *)
Definition entry_dict (p : pystr * pystr) : json :=
  JObj [(lit "type", JStr (fst p)); (lit "value", JStr (snd p))].

(** The text that ends up in a [TEXT NOT NULL] column for a Python value,
    when the value can be bound and stored. *)
Definition stored_text (j : json) : option pystr :=
  match bind_param j with
  | Ok v =>
      match text_not_null v with
      | Ok t => Some t
      | Raise _ => None
      end
  | Raise _ => None
  end.

(** An entry whose [type] and [value] can both be stored. *)
Definition storable_entry (m : json) : bool :=
  match m with
  | JObj fields =>
      match lookup (lit "type") fields, lookup (lit "value") fields with
      | Some ty, Some v =>
          match stored_text ty, stored_text v with
          | Some _, Some _ => true
          | _, _ => false
          end
      | _, _ => false
      end
  | _ => false
  end.

Definition is_text (j : json) : bool :=
  match j with
  | JStr _ => true
  | _ => false
  end.

(** The row an entry of a body is stored as, for a given contact: the
    texts of its [type] and of its [value]. *)
Definition entry_row (contact_id : Z) (m : json) (row : method_row) : Prop :=
  exists fields ty v,
    m = JObj fields
    /\ lookup (lit "type") fields = Some ty
    /\ lookup (lit "value") fields = Some v
    /\ stored_text ty = Some (m_method_type row)
    /\ stored_text v = Some (m_value row)
    /\ m_contact_id row = contact_id.

(** A method row of a given contact with a non-empty type and value. *)
Definition method_of (contact_id : Z) (m : method_row) : Prop :=
  m_contact_id m = contact_id /\ m_method_type m <> [] /\ m_value m <> [].

(** A text without white space at either end. *)
Definition trimmed (s : pystr) : Prop := strip s = s.

(** What holds of the file between requests: contact ids are distinct,
    positive and not above the last id handed out, which is not
    negative; every method names a
    contact id in that range and has a non-empty type and value; every
    name is trimmed and not empty; every favorite flag is 0 or 1. *)
Record well_formed (d : database) : Prop := mk_well_formed {
  wf_ids_distinct : NoDup (List.map c_id (contacts d));
  wf_ids_bounded :
    forall r, In r (contacts d) -> 0 < c_id r <= seq_contacts d;
  wf_owner_bounded :
    forall m, In m (contact_methods d) ->
              0 < m_contact_id m <= seq_contacts d;
  wf_methods :
    forall m, In m (contact_methods d) ->
              m_method_type m <> [] /\ m_value m <> [];
  wf_names :
    forall r, In r (contacts d) -> c_name r <> [] /\ trimmed (c_name r);
  wf_flags : binary_flags d;
  wf_seq : 0 <= seq_contacts d
}.

(** What [UPDATE contacts SET name = ?, address = ? WHERE id = ?] does
    to one row. *)
Definition set_name_address (name : pystr) (address : option pystr) (id : Z)
           (r : contact_row) : contact_row :=
  if c_id r =? id
  then mk_contact (c_id r) name address (c_is_favorite r)
  else r.

(** The views of the contacts of a run of kept rows of an import. *)
Fixpoint imported_views (first : Z) (rs : list row) : list contact_view :=
  match rs with
  | [] => []
  | r :: rest =>
      mk_view first (c_name (row_contact first r))
              (c_address (row_contact first r)) false
              (List.map entry_dict (row_methods r))
      :: imported_views (first + 1) rest
  end.

(** The sample data of the examples below. *)
Module Sample.

Definition phone_entry : json :=
  JObj [(lit "type", JStr (lit "phone")); (lit "value", JStr (lit "555-1111"))].

(** An entry without [value]. *)
Definition broken_entry : json := JObj [(lit "type", JStr (lit "email"))].

Definition ann : json :=
  JObj [(lit "name", JStr (lit " Ann "));
        (lit "address", JStr (lit "1 Main St"));
        (lit "methods", JArr [phone_entry])].

Definition rename : json := JObj [(lit "name", JStr (lit "Ann Lee"))].

Definition rename_with_methods : json :=
  JObj [(lit "name", JStr (lit "Ann Lee"));
        (lit "methods", JArr [broken_entry; phone_entry])].


(** An upload: the header, Alice with all fields, a row without a
    name, a blank line, Bob with an e-mail only. *)
Definition upload : list (list pystr) :=
  [ [col_name; col_phone; col_email; col_address];
    [lit "Alice"; lit "555-1111"; lit "a@x.com"; lit "1 Main St"];
    [lit ""; lit "555-2222"; lit "c@x.com"; lit "2 Main St"];
    [];
    [lit "Bob"; lit ""; lit "b@x.com"; lit ""] ].

(** The placeholder for [repr] of containers, which no sample reaches. *)
Definition no_repr : json -> pystr := fun _ => [].

(** The file after [ann] was created in a fresh database. *)
Definition with_ann : database := snd (add_contact no_repr ann empty_db).

End Sample.

(** More sample data, for the properties of the service. *)
Module Cases.

Import Sample.

(** The file after [ann] was created and deleted again: her method row
    is left behind. *)
Definition after_delete : database :=
  run no_repr [Create ann; Delete 1] empty_db.

(** The file after [ann] was created and made a favorite. *)
Definition with_favorite : database :=
  run no_repr [Create ann; ToggleFavorite 1] empty_db.

Definition bob_fields : list (pystr * json) :=
  [(lit "name", JStr (lit "Bob"));
   (lit "methods",
    JArr [JObj [(lit "type", JStr (lit "email"));
                (lit "value", JStr (lit "b@x.com"))]])].

(** A body whose name is null. *)
Definition null_name_fields : list (pystr * json) :=
  [(lit "name", JNull); (lit "methods", JArr [phone_entry])].

(** An entry that passes the check of Create but whose type is a list. *)
Definition list_typed_entry : json :=
  JObj [(lit "type", JArr [JStr (lit "phone")]);
        (lit "value", JStr (lit "555-1111"))].

Definition list_typed_fields : list (pystr * json) :=
  [(lit "name", JStr (lit "Bob"));
   (lit "methods", JArr [phone_entry; list_typed_entry])].

(** A body whose methods list holds a bare text. *)
Definition text_entry_fields : list (pystr * json) :=
  [(lit "name", JStr (lit "Ann Lee"));
   (lit "methods", JArr [phone_entry; JStr (lit "555-2222")])].

Definition rename_fields : list (pystr * json) :=
  [(lit "name", JStr (lit "Ann Lee"));
   (lit "methods", JArr [broken_entry; phone_entry])].







(** An upload with white space around the fields, a row whose name is
    white space only, a blank line and a short record. *)
Definition padded_upload : list (list pystr) :=
  [ [col_name; col_phone; col_email; col_address];
    [lit "  Alice "; lit " 555-1111"; lit "a@x.com "; lit " 1 Main St "];
    [lit "   "; lit "555-2222"; lit "c@x.com"; lit "2 Main St"];
    [];
    [lit "Bob "; lit "  "; lit "b@x.com"] ].

(** A body with white space around its name and its address, one
    incomplete entry and one complete entry. *)
Definition move_fields : list (pystr * json) :=
  [(lit "name", JStr (lit " Ann Lee "));
   (lit "address", JStr (lit " 2 Side St "));
   (lit "methods", JArr [broken_entry; phone_entry])].

(** An upload without the address column. *)
Definition short_header : list (list pystr) :=
  [ [col_name; col_phone; col_email];
    [lit "Alice"; lit "555-1111"; lit "a@x.com"] ].

End Cases.

(* ================================================================== *)
(** * Properties *)

Example strip_example :
  strip (lit "  Ann Lee	 ") = lit "Ann Lee".
Proof. reflexivity. Qed.

Example of_int_example : of_int (-120) = lit "-120" /\ of_int 0 = lit "0".
Proof. split; reflexivity. Qed.

Example with_ann_value :
  Sample.with_ann =
  mk_db [mk_contact 1 (lit "Ann") (Some (lit "1 Main St")) 0]
        [mk_method 1 1 (lit "phone") (lit "555-1111")] 1 1.
Proof. reflexivity. Qed.

Arguments lit : simpl never.

(** ** Text *)

Lemma lstrip_head (s : pystr) :
  match lstrip s with
  | [] => True
  | c :: _ => is_space c = false
  end.
Proof.
  induction s as [|c s IH]; simpl; auto.
  destruct (is_space c) eqn:E; [exact IH | exact E].
Qed.

Lemma lstrip_fixed (c : N) (s : pystr) :
  is_space c = false -> lstrip (c :: s) = c :: s.
Proof. intros H. simpl. rewrite H. reflexivity. Qed.

Lemma lstrip_idempotent (s : pystr) : lstrip (lstrip s) = lstrip s.
Proof.
  pose proof (lstrip_head s) as H. destruct (lstrip s) as [|c t]; auto.
  apply lstrip_fixed, H.
Qed.

Lemma lstrip_snoc (s : pystr) (c : N) :
  is_space c = false -> lstrip (s ++ [c]) = lstrip s ++ [c].
Proof.
  intros H. induction s as [|x s IH]; simpl.
  - rewrite H. reflexivity.
  - destruct (is_space x); [exact IH | reflexivity].
Qed.

(** [strip] gives a text that [strip] leaves alone. *)
Lemma strip_trimmed (s : pystr) : trimmed (strip s).
Proof.
  unfold trimmed, strip, rstrip.
  pose proof (lstrip_head s) as H. destruct (lstrip s) as [|c t].
  - reflexivity.
  - assert (Hl : lstrip (rev (lstrip (rev (c :: t))))
                 = rev (lstrip (rev (c :: t)))).
    { cbn [rev]. rewrite (lstrip_snoc _ c H), rev_app_distr. cbn [rev app].
      apply lstrip_fixed, H. }
    rewrite Hl, rev_involutive, lstrip_idempotent. reflexivity.
Qed.

Lemma nonempty_true (s : pystr) : nonempty s = true <-> s <> [].
Proof. destruct s; simpl; split; congruence. Qed.

Lemma of_int_nonempty (z : Z) : of_int z <> [].
Proof.
  unfold of_int, lit. destruct (Z.to_int z) as [d|d]; destruct d;
    simpl; discriminate.
Qed.

Lemma eqb_eq (a b : pystr) : eqb a b = true <-> a = b.
Proof.
  revert b. induction a as [|x a IH]; destruct b as [|y b]; simpl;
    try (split; congruence).
  rewrite andb_true_iff, N.eqb_eq, IH. split.
  - intros [-> ->]. reflexivity.
  - intros H. injection H as -> ->. auto.
Qed.

Lemma encodable_lstrip (s : pystr) :
  encodable s = true -> encodable (lstrip s) = true.
Proof.
  unfold encodable. induction s as [|c s IH]; simpl; auto.
  intros H. apply andb_true_iff in H as [Hc Hs].
  destruct (is_space c); [apply IH, Hs|]. simpl. rewrite Hc, Hs. reflexivity.
Qed.

Lemma encodable_rev (s : pystr) : encodable (rev s) = encodable s.
Proof.
  unfold encodable. induction s as [|c s IH]; simpl; auto.
  rewrite forallb_app, IH. simpl. rewrite andb_true_r. apply andb_comm.
Qed.

(** Trimming a text that can be encoded gives one that can. *)
Lemma encodable_strip (s : pystr) :
  encodable s = true -> encodable (strip s) = true.
Proof.
  intros H. unfold strip, rstrip. rewrite encodable_rev.
  apply encodable_lstrip. rewrite encodable_rev. apply encodable_lstrip, H.
Qed.

(** ** Binding *)

Lemma bind_int_ok (z : Z) :
  int64 z = true -> bind_int z = Ok (SInteger z).
Proof. unfold bind_int. intros ->. reflexivity. Qed.

Lemma bind_int_overflow (z : Z) :
  int64 z = false -> bind_int z = Raise OverflowError.
Proof. unfold bind_int. intros ->. reflexivity. Qed.

Lemma bind_text_ok (s : pystr) :
  encodable s = true -> bind_text s = Ok (SText s).
Proof. unfold bind_text. intros ->. reflexivity. Qed.

Lemma bind_optional_text_ok (o : option pystr) :
  encodable_option o = true ->
  exists v, bind_optional_text o = Ok v.
Proof.
  destruct o as [s|]; simpl; [|eauto].
  intros H. rewrite (bind_text_ok s H). eauto.
Qed.

(** Whatever binds a text has found it encodable. *)
Lemma bind_text_inv (s : pystr) (v : sqlval) :
  bind_text s = Ok v -> encodable s = true /\ v = SText s.
Proof.
  unfold bind_text. destruct (encodable s); [|discriminate].
  intros H. injection H as <-. auto.
Qed.

Lemma bind_optional_text_inv (o : option pystr) (v : sqlval) :
  bind_optional_text o = Ok v -> encodable_option o = true.
Proof.
  destruct o as [s|]; simpl; auto. intros H. apply (bind_text_inv s v H).
Qed.

Lemma bind_int_inv (z : Z) (v : sqlval) :
  bind_int z = Ok v -> int64 z = true.
Proof. unfold bind_int. destruct (int64 z); [auto | discriminate]. Qed.

(** A true value that can be stored is stored as a non-empty text. *)
Lemma stored_text_nonempty (j : json) (t : pystr) :
  truthy j = true -> stored_text j = Some t -> t <> [].
Proof.
  unfold stored_text, bind_param, bind_int, bind_text.
  destruct j as [|b|z|s| |]; simpl; try discriminate.
  - intros _ H. injection H as <-. apply of_int_nonempty.
  - intros _. destruct (int64 z); simpl; [|discriminate].
    intros H. injection H as <-. apply of_int_nonempty.
  - intros Hs. destruct (encodable s); simpl; [|discriminate].
    intros H. injection H as <-. apply nonempty_true, Hs.
Qed.

(** ** Engine facts *)

Lemma has_contact_find (d : database) (id : Z) :
  has_contact d id = true <-> exists r, contact_of d id = Some r.
Proof.
  unfold has_contact, contact_of. induction (contacts d) as [|r rs IH]; simpl.
  - split; [discriminate | intros [r H]; discriminate].
  - destruct (c_id r =? id); simpl.
    + split; [eauto | reflexivity].
    + exact IH.
Qed.

Lemma has_contact_in (d : database) (id : Z) :
  has_contact d id = true <-> exists r, In r (contacts d) /\ c_id r = id.
Proof.
  unfold has_contact. rewrite existsb_exists.
  split; intros (r & Hin & H); exists r; split; auto;
    [apply Z.eqb_eq, H | apply Z.eqb_eq, H].
Qed.

Lemma filter_none_matches (d : database) (id : Z) :
  has_contact d id = false ->
  filter (fun r => c_id r =? id) (contacts d) = []
  /\ filter (fun r => negb (c_id r =? id)) (contacts d) = contacts d.
Proof.
  unfold has_contact. induction (contacts d) as [|r rs IH]; simpl; auto.
  destruct (c_id r =? id); simpl; [discriminate|].
  intros H. destruct (IH H) as [-> ->]. auto.
Qed.

Lemma filter_some_matches (d : database) (id : Z) :
  has_contact d id = true ->
  0 < Z.of_nat (List.length (filter (fun r => c_id r =? id) (contacts d))).
Proof.
  unfold has_contact. induction (contacts d) as [|r rs IH]; simpl.
  - discriminate.
  - destruct (c_id r =? id); simpl; [lia | exact IH].
Qed.

Lemma has_contact_map (f : contact_row -> contact_row)
      (rows : list contact_row) (id : Z) :
  (forall r, c_id (f r) = c_id r) ->
  existsb (fun r => c_id r =? id) (List.map f rows)
  = existsb (fun r => c_id r =? id) rows.
Proof.
  intros Hf. induction rows as [|r rows IH]; simpl; auto.
  rewrite Hf, IH. reflexivity.
Qed.

Lemma max_rowid_app (ids : list Z) (x : Z) :
  max_rowid (ids ++ [x]) = Z.max (max_rowid ids) (Z.max x 0).
Proof.
  unfold max_rowid. induction ids as [|i ids IH]; simpl.
  - lia.
  - rewrite IH. lia.
Qed.

Lemma max_rowid_nonneg (ids : list Z) : 0 <= max_rowid ids.
Proof. unfold max_rowid. induction ids; simpl; lia. Qed.

Lemma max_rowid_ge (ids : list Z) (i : Z) : In i ids -> i <= max_rowid ids.
Proof.
  unfold max_rowid. induction ids as [|x ids IH]; simpl; [tauto|].
  intros [->|H]; [lia | specialize (IH H); lia].
Qed.

Lemma max_rowid_le (ids : list Z) (b : Z) :
  0 <= b -> (forall i, In i ids -> i <= b) -> max_rowid ids <= b.
Proof.
  intros Hb. unfold max_rowid. induction ids as [|x ids IH]; simpl; [lia|].
  intros H. pose proof (H x (or_introl eq_refl)).
  specialize (IH (fun i Hi => H i (or_intror Hi))). lia.
Qed.

(** After an insert, the next id is the one just given plus one. *)
Lemma next_rowid_after_insert (seq : Z) (ids : list Z) :
  next_rowid (next_rowid seq ids) (ids ++ [next_rowid seq ids])
  = next_rowid seq ids + 1.
Proof.
  unfold next_rowid. rewrite max_rowid_app.
  pose proof (max_rowid_nonneg ids). lia.
Qed.

(** The next id is positive, above the last one handed out and above
    every id in the table. *)
Lemma next_rowid_above (seq : Z) (ids : list Z) :
  0 < next_rowid seq ids
  /\ seq < next_rowid seq ids
  /\ forall i, In i ids -> i < next_rowid seq ids.
Proof.
  unfold next_rowid. pose proof (max_rowid_nonneg ids).
  repeat split; try lia.
  intros i Hi. pose proof (max_rowid_ge ids i Hi). lia.
Qed.

Lemma NoDup_snoc (ids : list Z) (i : Z) :
  NoDup ids -> ~ In i ids -> NoDup (ids ++ [i]).
Proof.
  intros Hnd Hi. induction Hnd as [|x ids Hx Hnd IH]; simpl.
  - constructor; [tauto | constructor].
  - constructor.
    + rewrite in_app_iff. simpl. intros [H|[H|[]]]; [tauto|].
      apply Hi. left. congruence.
    + apply IH. intros H. apply Hi. right. exact H.
Qed.

Lemma NoDup_app_below (l l' : list Z) :
  NoDup l -> NoDup l' ->
  (forall i j, In i l -> In j l' -> i < j) ->
  NoDup (l ++ l').
Proof.
  intros Hl Hl' Hlt. induction Hl as [|x l Hx Hl IH]; simpl; [exact Hl'|].
  constructor.
  - rewrite in_app_iff. intros [H|H]; [tauto|].
    specialize (Hlt x x (or_introl eq_refl) H). lia.
  - apply IH. intros i j Hi Hj. apply Hlt; [right; exact Hi | exact Hj].
Qed.

Lemma NoDup_map_filter (p : contact_row -> bool) (rows : list contact_row) :
  NoDup (List.map c_id rows) -> NoDup (List.map c_id (filter p rows)).
Proof.
  induction rows as [|r rows IH]; simpl; auto.
  intros H. inversion H as [|x l Hx Hl]; subst.
  destruct (p r); simpl; auto.
  constructor; auto.
  rewrite in_map_iff in *. intros (r' & E & Hin). apply Hx.
  exists r'. split; [exact E|]. apply filter_In in Hin. apply Hin.
Qed.

Lemma NoDup_map_c_id_inj (rows : list contact_row) (x y : contact_row) :
  NoDup (List.map c_id rows) ->
  In x rows -> In y rows -> c_id x = c_id y -> x = y.
Proof.
  induction rows as [|r rows IH]; simpl; [tauto|].
  intros Hnd. inversion Hnd as [|i l Hr Hl]; subst.
  intros [<-|Hx] [<-|Hy] E; auto.
  - exfalso. apply Hr. rewrite E. apply in_map, Hy.
  - exfalso. apply Hr. rewrite <- E. apply in_map, Hx.
Qed.

Lemma filter_owner_after_replace (id : Z) (old new : list method_row) :
  Forall (fun m => m_contact_id m = id) new ->
  filter (fun m => m_contact_id m =? id)
         (filter (fun m => negb (m_contact_id m =? id)) old ++ new) = new.
Proof.
  intros Hown. rewrite filter_app.
  replace (filter _ (filter _ old)) with (@nil method_row).
  - simpl. induction Hown as [|m new Hm _ IH]; simpl; auto.
    rewrite Hm, Z.eqb_refl, IH. reflexivity.
  - induction old as [|m old IH]; simpl; auto.
    destruct (m_contact_id m =? id) eqn:E; simpl; auto. rewrite E. exact IH.
Qed.

Lemma filter_other_after_replace (id other : Z) (old new : list method_row) :
  other <> id ->
  Forall (fun m => m_contact_id m = id) new ->
  filter (fun m => m_contact_id m =? other)
         (filter (fun m => negb (m_contact_id m =? id)) old ++ new)
  = filter (fun m => m_contact_id m =? other) old.
Proof.
  intros Hne Hown. rewrite filter_app.
  replace (filter (fun m => m_contact_id m =? other) new) with (@nil method_row).
  - rewrite app_nil_r. induction old as [|m old IH]; simpl; auto.
    destruct (m_contact_id m =? id) eqn:E; simpl.
    + apply Z.eqb_eq in E.
      destruct (m_contact_id m =? other) eqn:E'; auto.
      apply Z.eqb_eq in E'. congruence.
    + rewrite IH. reflexivity.
  - induction Hown as [|m new Hm _ IH]; simpl; auto.
    rewrite Hm. destruct (id =? other) eqn:E; auto.
    apply Z.eqb_eq in E. congruence.
Qed.

Lemma filter_owner_none (id : Z) (l : list method_row) :
  (forall m, In m l -> m_contact_id m <> id) ->
  filter (fun m => m_contact_id m =? id) l = [].
Proof.
  induction l as [|m l IH]; simpl; auto.
  intros H. destruct (m_contact_id m =? id) eqn:E.
  - apply Z.eqb_eq in E. exfalso. exact (H m (or_introl eq_refl) E).
  - apply IH. intros x Hx. apply H. right. exact Hx.
Qed.

Lemma filter_owner_all (id : Z) (l : list method_row) :
  Forall (fun m => m_contact_id m = id) l ->
  filter (fun m => m_contact_id m =? id) l = l.
Proof.
  induction 1 as [|m l Hm _ IH]; simpl; auto.
  rewrite Hm, Z.eqb_refl, IH. reflexivity.
Qed.

Lemma filter_map_swap {A B : Type} (f : A -> B) (p : A -> bool)
      (q : B -> bool) (l : list A) :
  (forall a, q (f a) = p a) ->
  List.map f (filter p l) = filter q (List.map f l).
Proof.
  intros H. induction l as [|a l IH]; simpl; auto.
  rewrite H. destruct (p a); simpl; rewrite IH; reflexivity.
Qed.

Lemma set_favorite_id (status id : Z) (r : contact_row) :
  c_id (set_favorite status id r) = c_id r.
Proof. unfold set_favorite. destruct (c_id r =? id); reflexivity. Qed.

Lemma find_set_favorite_same (status id : Z) (rows : list contact_row) :
  find (fun r => c_id r =? id) (List.map (set_favorite status id) rows)
  = option_map (set_favorite status id) (find (fun r => c_id r =? id) rows).
Proof.
  induction rows as [|r rows IH]; simpl; auto.
  rewrite set_favorite_id. destruct (c_id r =? id) eqn:E.
  - reflexivity.
  - exact IH.
Qed.


Lemma set_name_address_id (name : pystr) (address : option pystr) (id : Z)
      (r : contact_row) :
  c_id (set_name_address name address id r) = c_id r.
Proof. unfold set_name_address. destruct (c_id r =? id); reflexivity. Qed.

Lemma find_set_name_address_other (name : pystr) (address : option pystr)
      (id other : Z) (rows : list contact_row) :
  other <> id ->
  find (fun r => c_id r =? other)
       (List.map (set_name_address name address id) rows)
  = find (fun r => c_id r =? other) rows.
Proof.
  intros Hne. induction rows as [|r rows IH]; simpl; auto.
  rewrite set_name_address_id. destruct (c_id r =? other) eqn:E'.
  - apply Z.eqb_eq in E'. unfold set_name_address.
    destruct (c_id r =? id) eqn:E; auto.
    apply Z.eqb_eq in E. congruence.
  - exact IH.
Qed.

Lemma map_c_id_preserved (f : contact_row -> contact_row)
      (rows : list contact_row) :
  (forall r, c_id (f r) = c_id r) ->
  List.map c_id (List.map f rows) = List.map c_id rows.
Proof.
  intros Hf. rewrite map_map. apply map_ext. exact Hf.
Qed.

Lemma lookup_some_truthy (k : pystr) (fields : list (pystr * json)) (v : json) :
  lookup k fields = Some v -> truthy (JObj fields) = true.
Proof. destruct fields; [discriminate | reflexivity]. Qed.

Lemma read_view (d : database) (r : contact_row) :
  get_contact_with_methods (connect d) r
  = mk_view (c_id r) (c_name r) (c_address r)
            (negb (c_is_favorite r =? 0))
            (List.map entry_dict (stored_methods d (c_id r))).
Proof. reflexivity. Qed.

(** ** The insert loops *)

(** One executed insert: the entry is an object with a [type] and a
    [value] that can be stored, and one row is appended for them. *)
Lemma execute_insert_method_row (c c' : conn) (id : Z) (m : json) :
  execute_insert_method c id m = Ok c' ->
  exists fields ty v tt vt,
    m = JObj fields
    /\ lookup (lit "type") fields = Some ty
    /\ lookup (lit "value") fields = Some v
    /\ stored_text ty = Some tt /\ stored_text v = Some vt
    /\ c' = mk_conn
              (mk_db (contacts (work c))
                     (contact_methods (work c)
                      ++ [mk_method
                            (next_rowid (seq_contact_methods (work c))
                               (List.map m_id (contact_methods (work c))))
                            id tt vt])
                     (seq_contacts (work c))
                     (next_rowid (seq_contact_methods (work c))
                        (List.map m_id (contact_methods (work c)))))
              (foreign_keys c).
Proof.
  unfold execute_insert_method, py_index, insert_method.
  destruct m as [| | | | |fields]; try discriminate.
  destruct (lookup (lit "type") fields) as [ty|] eqn:Lt; cbn [bind];
    [|discriminate].
  destruct (lookup (lit "value") fields) as [v|] eqn:Lv; cbn [bind];
    [|discriminate].
  destruct (bind_param ty) as [sty|] eqn:Bt; cbn [bind]; [|discriminate].
  destruct (bind_param v) as [sv|] eqn:Bv; cbn [bind]; [|discriminate].
  destruct (text_not_null sty) as [tt|] eqn:Nt; cbn [bind]; [|discriminate].
  destruct (text_not_null sv) as [vt|] eqn:Nv; cbn [bind]; [|discriminate].
  destruct (foreign_keys c && negb (has_contact (work c) id)); [discriminate|].
  intros H. injection H as <-. exists fields, ty, v, tt, vt.
  unfold stored_text. rewrite Bt, Bv, Nt, Nv. auto 10.
Qed.

Lemma execute_insert_method_storable (c : conn) (id : Z) (m : json) :
  foreign_keys c = false ->
  storable_entry m = true ->
  exists c', execute_insert_method c id m = Ok c' /\ foreign_keys c' = false.
Proof.
  intros Hfk. unfold storable_entry, stored_text.
  destruct m as [| | | | |fields]; try discriminate.
  destruct (lookup (lit "type") fields) as [ty|] eqn:Lt; [|discriminate].
  destruct (lookup (lit "value") fields) as [v|] eqn:Lv; [|discriminate].
  destruct (bind_param ty) as [sty|] eqn:Bt; [|discriminate].
  destruct (text_not_null sty) as [tt|] eqn:Nt; [|discriminate].
  destruct (bind_param v) as [sv|] eqn:Bv; [|discriminate].
  destruct (text_not_null sv) as [vt|] eqn:Nv; [|discriminate].
  intros _. unfold execute_insert_method, py_index, insert_method.
  rewrite Lt, Lv. cbn [bind]. rewrite Bt, Bv. cbn [bind].
  rewrite Nt, Nv. cbn [bind]. rewrite Hfk. cbn [andb].
  eexists. split; reflexivity.
Qed.

Lemma execute_insert_method_unstorable (c : conn) (id : Z) (m : json) :
  storable_entry m = false ->
  exists e, execute_insert_method c id m = Raise e.
Proof.
  unfold storable_entry, stored_text, execute_insert_method,
    py_index, insert_method.
  destruct m as [| | | | |fields]; try (intros _; eexists; reflexivity).
  destruct (lookup (lit "type") fields) as [ty|];
    [|intros _; eexists; reflexivity].
  destruct (lookup (lit "value") fields) as [v|];
    [|intros _; eexists; reflexivity].
  cbn [bind].
  destruct (bind_param ty) as [sty|]; [|intros _; eexists; reflexivity].
  cbn [bind].
  destruct (bind_param v) as [sv|]; [|intros _; eexists; reflexivity].
  cbn [bind].
  destruct (text_not_null sty) as [tt|]; [|intros _; eexists; reflexivity].
  cbn [bind].
  destruct (text_not_null sv) as [vt|]; [|intros _; eexists; reflexivity].
  discriminate.
Qed.

(** A complete entry can be stored exactly when its two texts can be
    encoded, and then it is stored as these texts. *)
Lemma entry_pair_stored (m : json) (ty v : pystr) :
  entry_pair m = Some (ty, v) ->
  exists fields,
    m = JObj fields
    /\ lookup (lit "type") fields = Some (JStr ty)
    /\ lookup (lit "value") fields = Some (JStr v)
    /\ nonempty ty = true /\ nonempty v = true
    /\ storable_entry m = encodable ty && encodable v.
Proof.
  unfold entry_pair, storable_entry, stored_text.
  destruct m as [| | | | |fields]; try discriminate.
  destruct (lookup (lit "type") fields) as [[| | |ty0| |]|] eqn:Lt;
    try discriminate.
  destruct (lookup (lit "value") fields) as [[| | |v0| |]|] eqn:Lv;
    try discriminate.
  destruct (nonempty ty0) eqn:Nt; [|discriminate].
  destruct (nonempty v0) eqn:Nv; [|discriminate].
  cbn [andb]. intros H. injection H as <- <-.
  exists fields. split; [reflexivity|]. split; [exact Lt|].
  split; [exact Lv|]. split; [exact Nt|]. split; [exact Nv|].
  cbn [bind_param]. unfold bind_text.
  destruct (encodable ty0), (encodable v0); reflexivity.
Qed.

Lemma stored_text_of_text (s : pystr) :
  encodable s = true -> stored_text (JStr s) = Some s.
Proof.
  intros H. unfold stored_text. cbn [bind_param]. rewrite (bind_text_ok s H).
  reflexivity.
Qed.

(** The insert of a complete entry whose texts can be encoded. *)
Lemma execute_insert_method_complete
      (c : conn) (id : Z) (m : json) (ty v : pystr) :
  foreign_keys c = false ->
  entry_pair m = Some (ty, v) ->
  encodable ty = true -> encodable v = true ->
  execute_insert_method c id m =
  Ok (mk_conn
        (mk_db (contacts (work c))
               (contact_methods (work c)
                ++ [mk_method
                      (next_rowid (seq_contact_methods (work c))
                         (List.map m_id (contact_methods (work c))))
                      id ty v])
               (seq_contacts (work c))
               (next_rowid (seq_contact_methods (work c))
                  (List.map m_id (contact_methods (work c)))))
        false).
Proof.
  intros Hfk Hp Ht Hv.
  destruct (entry_pair_stored m ty v Hp)
    as (fields & -> & Lt & Lv & _ & _ & _).
  unfold execute_insert_method, py_index, insert_method.
  rewrite Lt, Lv. cbn [bind bind_param].
  rewrite (bind_text_ok ty Ht), (bind_text_ok v Hv).
  cbn [bind text_not_null]. rewrite Hfk. reflexivity.
Qed.

(** The insert of a complete entry one of whose texts cannot be
    encoded. *)
Lemma execute_insert_method_unencodable
      (c : conn) (id : Z) (m : json) (ty v : pystr) :
  entry_pair m = Some (ty, v) ->
  encodable ty && encodable v = false ->
  exists e, execute_insert_method c id m = Raise e.
Proof.
  intros Hp Henc. apply execute_insert_method_unstorable.
  destruct (entry_pair_stored m ty v Hp) as (_ & _ & _ & _ & _ & _ & ->).
  exact Henc.
Qed.

(** The insert loop of Create after its check loop: one row per entry,
    in order, each of the contact and with a non-empty type and value. *)
Lemma insert_all_methods_rows (id : Z) (ms : list json) :
  forall c c' : conn,
    methods_all_valid ms = Ok true ->
    insert_all_methods c id ms = Ok c' ->
    contacts (work c') = contacts (work c)
    /\ seq_contacts (work c') = seq_contacts (work c)
    /\ exists new,
        contact_methods (work c') = contact_methods (work c) ++ new
        /\ Forall2 (entry_row id) ms new
        /\ Forall (method_of id) new.
Proof.
  induction ms as [|m ms IH]; intros c c' Hval;
    cbn [insert_all_methods methods_all_valid] in *.
  - intros H. injection H as <-. repeat split.
    exists []. rewrite app_nil_r. auto.
  - destruct (execute_insert_method c id m) as [c1|] eqn:E; cbn [bind];
      [|discriminate].
    intros H.
    destruct (execute_insert_method_row _ _ _ _ E)
      as (fields & ty & v & tt & vt & -> & Lt & Lv & St & Sv & ->).
    unfold py_get in Hval. rewrite Lt in Hval. cbn [bind] in Hval.
    destruct (truthy ty) eqn:Tt; cbn [negb] in Hval; [|discriminate].
    rewrite Lv in Hval. cbn [bind] in Hval.
    destruct (truthy v) eqn:Tv; cbn [negb] in Hval; [|discriminate].
    destruct (IH _ _ Hval H) as (Hc & Hs & new & Hm & Hrows & Hall).
    cbn [work contacts contact_methods seq_contacts] in *.
    split; [exact Hc|]. split; [exact Hs|].
    eexists (_ :: new). rewrite Hm, <- app_assoc. split; [reflexivity|].
    split.
    + constructor; [|exact Hrows].
      exists fields, ty, v. cbn [m_contact_id m_method_type m_value]. auto 10.
    + constructor; [|exact Hall].
      repeat split; cbn [m_contact_id m_method_type m_value];
        eauto using stored_text_nonempty.
Qed.

(** The insert loop of Update: rows of the contact with a non-empty
    type and value. *)
Lemma insert_wellformed_methods_rows (id : Z) (ms : list json) :
  forall c c' : conn,
    insert_wellformed_methods c id ms = Ok c' ->
    contacts (work c') = contacts (work c)
    /\ seq_contacts (work c') = seq_contacts (work c)
    /\ exists new,
        contact_methods (work c') = contact_methods (work c) ++ new
        /\ Forall (method_of id) new.
Proof.
  induction ms as [|m ms IH]; intros c c'; cbn [insert_wellformed_methods].
  - intros H. injection H as <-. repeat split.
    exists []. rewrite app_nil_r. auto.
  - destruct (py_get m (lit "type") JNull) as [ty|] eqn:Gt; cbn [bind];
      [|discriminate].
    destruct (truthy ty) eqn:Tt.
    + destruct (py_get m (lit "value") JNull) as [v|] eqn:Gv; cbn [bind];
        [|discriminate].
      destruct (truthy v) eqn:Tv.
      * destruct (execute_insert_method c id m) as [c1|] eqn:E; cbn [bind];
          [|discriminate].
        intros H.
        destruct (execute_insert_method_row _ _ _ _ E)
          as (fields & ty' & v' & tt & vt & -> & Lt & Lv & St & Sv & ->).
        unfold py_get in Gt, Gv. rewrite Lt in Gt. rewrite Lv in Gv.
        injection Gt as ->. injection Gv as ->.
        destruct (IH _ _ H) as (Hc & Hs & new & Hm & Hall).
        cbn [work contacts contact_methods seq_contacts] in *.
        split; [exact Hc|]. split; [exact Hs|].
        eexists (_ :: new). rewrite Hm, <- app_assoc. split; [reflexivity|].
        constructor; [|exact Hall].
        repeat split; cbn [m_contact_id m_method_type m_value];
          eauto using stored_text_nonempty.
      * cbn [bind]. apply IH.
    + cbn [bind]. apply IH.
Qed.

Lemma insert_all_methods_unstorable (id : Z) (ms : list json) :
  forall c : conn,
    foreign_keys c = false ->
    forallb storable_entry ms = false ->
    exists e, insert_all_methods c id ms = Raise e.
Proof.
  induction ms as [|m ms IH]; intros c Hfk; cbn [forallb insert_all_methods];
    [discriminate|].
  destruct (storable_entry m) eqn:Hm; cbn [andb].
  - destruct (execute_insert_method_storable c id m Hfk Hm)
      as (c' & -> & Hfk').
    cbn [bind]. apply IH, Hfk'.
  - intros _. destruct (execute_insert_method_unstorable c id m Hm) as [e ->].
    exists e. reflexivity.
Qed.

Lemma insert_wellformed_methods_non_object (id : Z) (ms : list json) :
  forallb is_object ms = false ->
  forall c : conn, exists e, insert_wellformed_methods c id ms = Raise e.
Proof.
  induction ms as [|m ms IH]; cbn [forallb insert_wellformed_methods];
    [discriminate|].
  intros H c. destruct (is_object m) eqn:Hm; cbn [andb] in H.
  - destruct (py_get m (lit "type") JNull) as [ty|e]; cbn [bind];
      [|exists e; reflexivity].
    destruct (if truthy ty
              then v <- py_get m (lit "value") JNull;; Ok (truthy v)
              else Ok false) as [keep|e]; cbn [bind];
      [|exists e; reflexivity].
    destruct (if keep then execute_insert_method c id m else Ok c)
      as [c'|e]; cbn [bind]; [|exists e; reflexivity].
    apply IH, H.
  - destruct m; try discriminate Hm; exists AttributeError; reflexivity.
Qed.

Lemma complete_entry_object (m : json) :
  complete_entry m = true ->
  is_object m = true /\ has_type_and_value m = true /\ method_entry m = true.
Proof.
  unfold complete_entry, entry_pair, has_type_and_value, method_entry.
  destruct m as [| | | | |fs]; try discriminate.
  destruct (lookup (lit "type") fs) as [[| | |ty| |]|]; try discriminate.
  destruct (lookup (lit "value") fs) as [[| | |v| |]|]; try discriminate.
  simpl. destruct (nonempty ty), (nonempty v); try discriminate. auto.
Qed.

(** On objects the check loop of Create never raises: it tells whether
    every entry has a true type and a true value. *)
Lemma methods_all_valid_objects (ms : list json) :
  forallb is_object ms = true ->
  methods_all_valid ms = Ok (forallb has_type_and_value ms).
Proof.
  induction ms as [|m ms IH]; simpl; auto.
  intros H. apply andb_true_iff in H as [Hm H].
  destruct m as [| | | | |fs]; try discriminate Hm. simpl.
  destruct (lookup (lit "type") fs) as [ty|]; simpl.
  - destruct (truthy ty); simpl; auto.
    destruct (lookup (lit "value") fs) as [v|]; simpl; auto.
    destruct (truthy v); simpl; auto.
  - reflexivity.
Qed.

(** On complete entries whose texts can be encoded the insert loop of
    Create never raises: one row, owned by the contact, per entry, in
    order. *)
Lemma insert_all_methods_complete (id : Z) (ms : list json) :
  forall c : conn,
    foreign_keys c = false ->
    forallb complete_entry ms = true ->
    forallb encodable_entry ms = true ->
    exists new seq',
      insert_all_methods c id ms =
      Ok (mk_conn (mk_db (contacts (work c))
                         (contact_methods (work c) ++ new)
                         (seq_contacts (work c)) seq') false)
      /\ List.map pair_of_method new = complete_pairs ms
      /\ Forall (fun m => m_contact_id m = id) new.
Proof.
  induction ms as [|m ms IH]; intros c Hfk Hall Henc.
  - exists [], (seq_contact_methods (work c)). simpl.
    rewrite app_nil_r. destruct c as [[? ? ? ?] ?]; simpl in *; subst.
    repeat split; constructor.
  - cbn [forallb] in Hall, Henc.
    apply andb_true_iff in Hall as [Hm Hall].
    apply andb_true_iff in Henc as [Hmenc Henc].
    unfold complete_entry in Hm. unfold encodable_entry in Hmenc.
    destruct (entry_pair m) as [[ty v]|] eqn:Ep; [clear Hm|discriminate].
    apply andb_true_iff in Hmenc as [Ht Hv].
    cbn [insert_all_methods].
    rewrite (execute_insert_method_complete c id m ty v Hfk Ep Ht Hv).
    cbn [bind].
    match goal with
    | |- context [insert_all_methods ?c1 id ms] =>
        destruct (IH c1 eq_refl Hall Henc) as (new & seq' & Hrun & Hmap & Hown)
    end.
    rewrite Hrun. cbn [work contacts contact_methods seq_contacts].
    eexists (_ :: new), seq'. rewrite <- app_assoc. split; [reflexivity|].
    split.
    + cbn [List.map complete_pairs]. rewrite Ep, <- Hmap. reflexivity.
    + constructor; [reflexivity | exact Hown].
Qed.

(** One turn of the insert loop of Update on an entry of the data
    model. *)
Lemma insert_wellformed_methods_cons (c : conn) (id : Z) (m : json)
      (ms : list json) :
  insert_wellformed_methods c id (m :: ms)
  = (c' <- insert_wellformed_methods c id [m] ;;
     insert_wellformed_methods c' id ms).
Proof.
  cbn [insert_wellformed_methods].
  destruct (py_get m (lit "type") JNull) as [ty|]; cbn [bind]; auto.
  destruct (if truthy ty
            then v <- py_get m (lit "value") JNull;; Ok (truthy v)
            else Ok false) as [keep|]; cbn [bind]; auto.
  destruct (if keep then execute_insert_method c id m else Ok c);
    cbn [bind]; auto.
Qed.

Lemma insert_wellformed_methods_single (c : conn) (id : Z) (m : json) :
  method_entry m = true ->
  insert_wellformed_methods c id [m]
  = match entry_pair m with
    | Some _ => execute_insert_method c id m
    | None => Ok c
    end.
Proof.
  intros Hm. cbn [insert_wellformed_methods].
  destruct m as [| | | | |fs]; try discriminate Hm.
  unfold method_entry, entry_pair, py_get in *.
  destruct (lookup (lit "type") fs) as [[| | |ty| |]|];
    try discriminate Hm; cbn [bind truthy]; auto;
    destruct (lookup (lit "value") fs) as [[| | |v| |]|];
    try discriminate Hm; cbn [bind truthy]; auto;
    destruct (nonempty ty); cbn [bind truthy andb]; auto;
    try (destruct (nonempty v); cbn [bind]; auto);
    destruct (execute_insert_method c id (JObj fs)); reflexivity.
Qed.

(** On entries of the data model whose texts can be encoded the insert
    loop of Update never raises: it appends one row, owned by the
    contact, per complete entry, in order, and touches nothing else. *)
Lemma insert_wellformed_methods_entries (id : Z) (ms : list json) :
  forall c : conn,
    foreign_keys c = false ->
    forallb method_entry ms = true ->
    forallb encodable_entry ms = true ->
    exists new seq',
      insert_wellformed_methods c id ms =
      Ok (mk_conn (mk_db (contacts (work c))
                         (contact_methods (work c) ++ new)
                         (seq_contacts (work c)) seq') false)
      /\ List.map pair_of_method new = complete_pairs ms
      /\ Forall (fun m => m_contact_id m = id) new.
Proof.
  induction ms as [|m ms IH]; intros c Hfk Hall Henc.
  - exists [], (seq_contact_methods (work c)). simpl.
    rewrite app_nil_r. destruct c as [[? ? ? ?] ?]; simpl in *; subst.
    repeat split; constructor.
  - cbn [forallb] in Hall, Henc.
    apply andb_true_iff in Hall as [Hm Hall].
    apply andb_true_iff in Henc as [Hmenc Henc].
    rewrite insert_wellformed_methods_cons,
      (insert_wellformed_methods_single c id m Hm).
    unfold encodable_entry in Hmenc. cbn [complete_pairs].
    destruct (entry_pair m) as [[ty v]|] eqn:Ep.
    + apply andb_true_iff in Hmenc as [Ht Hv].
      rewrite (execute_insert_method_complete c id m ty v Hfk Ep Ht Hv).
      cbn [bind].
      match goal with
      | |- context [insert_wellformed_methods ?c1 id ms] =>
          destruct (IH c1 eq_refl Hall Henc)
            as (new & seq' & Hrun & Hmap & Hown)
      end.
      rewrite Hrun. cbn [work contacts contact_methods seq_contacts].
      eexists (_ :: new), seq'. rewrite <- app_assoc. split; [reflexivity|].
      split.
      * cbn [List.map]. rewrite <- Hmap. reflexivity.
      * constructor; [reflexivity | exact Hown].
    + cbn [bind]. apply IH; assumption.
Qed.

(** On entries of the data model one of whose complete entries holds a
    text that cannot be encoded, the loop raises. *)
Lemma insert_wellformed_methods_unencodable (id : Z) (ms : list json) :
  forall c : conn,
    foreign_keys c = false ->
    forallb method_entry ms = true ->
    forallb encodable_entry ms = false ->
    exists e, insert_wellformed_methods c id ms = Raise e.
Proof.
  induction ms as [|m ms IH]; intros c Hfk Hall Henc;
    cbn [forallb] in *; [discriminate|].
  apply andb_true_iff in Hall as [Hm Hall].
  rewrite insert_wellformed_methods_cons,
    (insert_wellformed_methods_single c id m Hm).
  unfold encodable_entry in Henc at 1.
  destruct (entry_pair m) as [[ty v]|] eqn:Ep.
  - destruct (encodable ty && encodable v) eqn:E.
    + apply andb_true_iff in E as [Ht Hv].
      rewrite (execute_insert_method_complete c id m ty v Hfk Ep Ht Hv).
      cbn [bind andb] in *. apply IH; auto.
    + destruct (execute_insert_method_unencodable c id m ty v Ep E) as [e ->].
      exists e. reflexivity.
  - cbn [bind andb] in *. apply IH; auto.
Qed.

(** ** Delete *)

(** An id that does not fit in 64 bits cannot be bound: the DELETE
    raises and nothing changes. *)
Lemma delete_contact_overflow (id : Z) (file : database) :
  int64 id = false ->
  delete_contact id file = ((Unhandled OverflowError, 500), file).
Proof.
  intros H. unfold delete_contact, delete_contact_row.
  rewrite (bind_int_overflow id H). reflexivity.
Qed.

(** On an id without a row, [delete_contact] answers 404 and leaves
    the file as it was. *)
Lemma delete_contact_missing (id : Z) (file : database) :
  int64 id = true ->
  has_contact file id = false ->
  delete_contact id file = ((Error NoSuchContact, 404), file).
Proof.
  intros Hid H. unfold delete_contact, delete_contact_row.
  rewrite (bind_int_ok id Hid). cbn [bind connect work foreign_keys andb].
  destruct (filter_none_matches file id H) as [-> ->]. simpl.
  destruct file; reflexivity.
Qed.

(** On an id with a row, [delete_contact] answers 200, takes the row
    out of [contacts] and leaves [contact_methods] untouched. *)
Lemma delete_contact_existing (id : Z) (file : database) :
  int64 id = true ->
  has_contact file id = true ->
  delete_contact id file =
  ((Message Deleted, 200),
   mk_db (filter (fun r => negb (c_id r =? id)) (contacts file))
         (contact_methods file) (seq_contacts file)
         (seq_contact_methods file)).
Proof.
  intros Hid H. unfold delete_contact, delete_contact_row.
  rewrite (bind_int_ok id Hid). cbn [bind connect work foreign_keys andb commit].
  pose proof (filter_some_matches file id H) as Hlen.
  destruct (0 <? _) eqn:E; [reflexivity | apply Z.ltb_ge in E; lia].
Qed.

(** The file after a Delete, whatever the answer. *)
Lemma delete_contact_file (id : Z) (file : database) :
  snd (delete_contact id file)
  = if int64 id
    then mk_db (filter (fun r => negb (c_id r =? id)) (contacts file))
               (contact_methods file) (seq_contacts file)
               (seq_contact_methods file)
    else file.
Proof.
  destruct (int64 id) eqn:Hid.
  - destruct (has_contact file id) eqn:Hex.
    + rewrite (delete_contact_existing id file Hid Hex). reflexivity.
    + rewrite (delete_contact_missing id file Hid Hex).
      destruct (filter_none_matches file id Hex) as [_ ->].
      destruct file; reflexivity.
  - rewrite (delete_contact_overflow id file Hid). reflexivity.
Qed.

(** The same statement on a connection that enforces foreign keys
    removes the methods of the contact with it: the cascade of the
    schema. *)
Lemma delete_cascades_with_foreign_keys (id : Z) (file : database) :
  int64 id = true ->
  has_contact file id = true ->
  exists c rowcount,
    delete_contact_row (with_foreign_keys (connect file)) id
    = Ok (c, rowcount)
    /\ select_methods c id = [] /\ has_contact (work c) id = false.
Proof.
  intros Hid H. unfold delete_contact_row. rewrite (bind_int_ok id Hid).
  cbn [bind]. do 2 eexists. split; [reflexivity|].
  pose proof (filter_some_matches file id H) as Hlen.
  unfold select_methods, has_contact; simpl.
  destruct (Z.of_nat _ =? 0) eqn:E; [apply Z.eqb_eq in E; lia|]. simpl.
  split.
  - induction (contact_methods file) as [|m ms IH]; simpl; auto.
    destruct (m_contact_id m =? id) eqn:Em; simpl; auto. rewrite Em. exact IH.
  - clear. induction (contacts file) as [|r rs IH]; simpl; auto.
    destruct (c_id r =? id) eqn:Er; simpl; auto. rewrite Er. exact IH.
Qed.

(** C2 (code at the failing input).  Deleting an existing contact takes
    its row out of [contacts] but leaves its method rows in
    [contact_methods]: the connection never enforces the cascade the
    schema declares. *)
Theorem delete_contact_leaves_methods :
  delete_contact 1 Sample.with_ann =
  ((Message Deleted, 200),
   mk_db [] [mk_method 1 1 (lit "phone") (lit "555-1111")] 1 1)
  /\ has_contact (snd (delete_contact 1 Sample.with_ann)) 1 = false
  /\ stored_methods (snd (delete_contact 1 Sample.with_ann)) 1
     = [(lit "phone", lit "555-1111")].
Proof. repeat split. Qed.

(** C3 (code at the failing input).  After a Create and a Delete of the
    contact it made, the file holds a method row whose contact is gone. *)
Theorem reachable_state_with_orphan (py_repr : json -> pystr) :
  let file := run py_repr [Create Sample.ann; Delete 1] empty_db in
  reachable py_repr file /\ ~ no_orphans file.
Proof.
  split.
  - exists [Create Sample.ann; Delete 1]. reflexivity.
  - intros H.
    specialize (H (mk_method 1 1 (lit "phone") (lit "555-1111"))).
    simpl in H. discriminate H. left. reflexivity.
Qed.

(** ** Update: the favorite flag of the answer *)

(** C1 (code at the failing input).  Updating a contact that is not a
    favorite answers with [is_favorite] true, while the row keeps 0. *)
Theorem update_contact_reports_favorite_of_unfavorite
        (py_repr : json -> pystr) :
  exists v file',
    update_contact py_repr 1 Sample.rename Sample.with_ann
    = ((Contact v, 200), file')
    /\ v_is_favorite v = true
    /\ option_map c_is_favorite (contact_of file' 1) = Some 0
    /\ favorite_of file' 1 = Some false.
Proof. do 2 eexists. repeat split. Qed.

(** ** Toggle *)

Lemma toggle_favorite_overflow (id : Z) (file : database) :
  int64 id = false ->
  toggle_favorite id file = ((Unhandled OverflowError, 500), file).
Proof.
  intros H. unfold toggle_favorite, select_is_favorite.
  rewrite (bind_int_overflow id H). reflexivity.
Qed.

(** [toggle_favorite] on a missing id: 404, file untouched. *)
Lemma toggle_favorite_missing (id : Z) (file : database) :
  int64 id = true ->
  has_contact file id = false ->
  toggle_favorite id file = ((Error NoSuchContact, 404), file).
Proof.
  intros Hid H. unfold toggle_favorite, select_is_favorite.
  rewrite (bind_int_ok id Hid). cbn [bind connect work].
  destruct (contact_of file id) as [r|] eqn:E.
  - assert (has_contact file id = true) by (apply has_contact_find; eauto).
    congruence.
  - unfold contact_of in E. rewrite E. reflexivity.
Qed.

(** [toggle_favorite] on an existing id. *)
Lemma toggle_favorite_existing (id : Z) (file : database) (r : contact_row) :
  int64 id = true ->
  contact_of file id = Some r ->
  let status := if c_is_favorite r =? 1 then 0 else 1 in
  toggle_favorite id file =
  ((Favorite (negb (status =? 0)), 200),
   mk_db (List.map (set_favorite status id) (contacts file))
         (contact_methods file) (seq_contacts file) (seq_contact_methods file)).
Proof.
  intros Hid H. unfold toggle_favorite, select_is_favorite, update_is_favorite.
  rewrite (bind_int_ok id Hid). cbn [bind connect work].
  unfold contact_of in H. rewrite H. cbn [option_map].
  rewrite bind_int_ok by (destruct (c_is_favorite r =? 1); reflexivity).
  reflexivity.
Qed.

Lemma contact_of_none (file : database) (id : Z) :
  contact_of file id = None -> has_contact file id = false.
Proof.
  intros Hr. destruct (has_contact file id) eqn:E; auto.
  apply has_contact_find in E as [r1 E]. congruence.
Qed.


(** ** Update *)

(** The address a body of the data model asks for is the one the view
    computes. *)
Lemma coerce_address_body (py_repr : json -> pystr)
      (fields : list (pystr * json)) :
  address_text_or_null fields = true ->
  coerce_address py_repr (address_field fields) = body_address fields.
Proof.
  unfold address_text_or_null, address_field, body_address.
  destruct (lookup (lit "address") fields) as [[| | |s| |]|];
    try discriminate; reflexivity.
Qed.

Section UpdateFacts.

Variable py_repr : json -> pystr.

(** A body that [update_contact] turns down before it opens the
    database, or one that passes its checks. *)
Lemma update_contact_shape (id : Z) (data : json) (file : database) :
  (snd (update_contact py_repr id data file) = file
   /\ snd (fst (update_contact py_repr id data file)) <> 200
   /\ forall v st, fst (update_contact py_repr id data file) <> (Contact v, st))
  \/ exists fields raw ms,
      data = JObj fields
      /\ lookup (lit "name") fields = Some (JStr raw)
      /\ nonempty (strip raw) = true
      /\ methods_field fields = JArr ms.
Proof.
  unfold update_contact.
  destruct (truthy data) eqn:Ht; cbn [negb];
    [|left; repeat split; discriminate].
  destruct data as [| | | | |fields];
    try (left; repeat split; discriminate).
  unfold py_get, methods_field.
  destruct (lookup (lit "name") fields) as [[| | |raw| |]|] eqn:Hname;
    cbn [bind py_strip serve];
    try (left; repeat split; discriminate).
  - destruct (lookup (lit "address") fields); cbn [bind];
      (destruct (lookup (lit "methods") fields) as [mf|] eqn:Hm; cbn [bind];
       (destruct (nonempty (strip raw)) eqn:Hne; cbn [negb serve];
        [|left; repeat split; discriminate]);
       [destruct mf as [| | | |ms|];
        try (left; repeat split; discriminate)|];
       right; exists fields, raw; eexists; rewrite ?Hm; auto).
  - destruct (lookup (lit "address") fields); cbn [bind];
      destruct (lookup (lit "methods") fields); cbn [bind];
      left; repeat split; discriminate.
Qed.

(** What [update_contact] does once the checks of the body have
    passed. *)
Lemma update_contact_checked
      (id : Z) (fields : list (pystr * json)) (raw : pystr)
      (ms : list json) (file : database) :
  lookup (lit "name") fields = Some (JStr raw) ->
  nonempty (strip raw) = true ->
  methods_field fields = JArr ms ->
  let address := coerce_address py_repr (address_field fields) in
  update_contact py_repr id (JObj fields) file =
  if negb (int64 id) then ((Unhandled OverflowError, 500), file)
  else if negb (has_contact file id) then ((Error NoSuchContact, 404), file)
  else if negb (encodable (strip raw) && encodable_option address)
  then ((Unhandled UnicodeEncodeError, 500), file)
  else
    serve file (
      conn3 <- insert_wellformed_methods
                 (mk_conn
                    (mk_db (List.map (set_name_address (strip raw) address id)
                                     (contacts file))
                           (filter (fun m => negb (m_contact_id m =? id))
                                   (contact_methods file))
                           (seq_contacts file) (seq_contact_methods file))
                    false)
                 id ms ;;
      Ok ((Contact (mk_view id (strip raw) address true ms), 200),
          commit conn3)).
Proof.
  intros Hname Hne Hms address. unfold update_contact.
  rewrite (lookup_some_truthy _ _ _ Hname). cbn [negb py_get].
  rewrite Hname. cbn [bind py_strip].
  assert (Hget : (match lookup (lit "methods") fields with
                  | Some v => Ok v
                  | None => Ok (JArr [])
                  end) = Ok (JArr ms)).
  { unfold methods_field in Hms.
    destruct (lookup (lit "methods") fields); congruence. }
  assert (Haddr : (match lookup (lit "address") fields with
                   | Some v => Ok v
                   | None => Ok JNull
                   end) = Ok (address_field fields)).
  { unfold address_field. destruct (lookup (lit "address") fields); auto. }
  rewrite Haddr, Hget. cbn [bind]. rewrite Hne. cbn [negb].
  fold address.
  unfold select_one, update_name_address, delete_methods, bind_int.
  destruct (int64 id); cbn [negb bind serve]; [|reflexivity].
  cbn [connect work].
  destruct (has_contact file id); cbn [negb row_truthy serve]; [|reflexivity].
  unfold bind_text. destruct (encodable (strip raw)); cbn [andb negb bind serve];
    [|reflexivity].
  destruct address as [a|]; cbn [bind_optional_text encodable_option].
  - unfold bind_text. destruct (encodable a); cbn [negb bind serve];
      reflexivity.
  - reflexivity.
Qed.

(** On an id that no contact has. *)
Lemma update_contact_checked_missing
      (id : Z) (fields : list (pystr * json)) (raw : pystr)
      (ms : list json) (file : database) :
  lookup (lit "name") fields = Some (JStr raw) ->
  nonempty (strip raw) = true ->
  methods_field fields = JArr ms ->
  has_contact file id = false ->
  update_contact py_repr id (JObj fields) file
  = if int64 id then ((Error NoSuchContact, 404), file)
    else ((Unhandled OverflowError, 500), file).
Proof.
  intros Hname Hne Hms Hex.
  rewrite (update_contact_checked id fields raw ms file Hname Hne Hms).
  rewrite Hex. destruct (int64 id); reflexivity.
Qed.

(** On an existing contact, with an id, a name and an address that can
    be bound. *)
Lemma update_contact_found
      (id : Z) (fields : list (pystr * json)) (raw : pystr)
      (ms : list json) (file : database) :
  lookup (lit "name") fields = Some (JStr raw) ->
  nonempty (strip raw) = true ->
  methods_field fields = JArr ms ->
  int64 id = true ->
  has_contact file id = true ->
  encodable (strip raw) = true ->
  let address := coerce_address py_repr (address_field fields) in
  encodable_option address = true ->
  update_contact py_repr id (JObj fields) file =
  serve file (
    conn3 <- insert_wellformed_methods
               (mk_conn
                  (mk_db (List.map (set_name_address (strip raw) address id)
                                   (contacts file))
                         (filter (fun m => negb (m_contact_id m =? id))
                                 (contact_methods file))
                         (seq_contacts file) (seq_contact_methods file))
                  false)
               id ms ;;
    Ok ((Contact (mk_view id (strip raw) address true ms), 200),
        commit conn3)).
Proof.
  intros Hname Hne Hms Hid Hex Hn address Ha.
  rewrite (update_contact_checked id fields raw ms file Hname Hne Hms).
  fold address. rewrite Hid, Hex, Hn, Ha. reflexivity.
Qed.

(** Update in full: either the answer is not a 200 and the file is as it
    was, or the body passed the checks, the contact exists, everything
    could be bound, the answer is a 200, the name and address are
    overwritten and the methods replaced. *)
Lemma update_contact_effect (id : Z) (data : json) (file : database) :
  (snd (update_contact py_repr id data file) = file
   /\ snd (fst (update_contact py_repr id data file)) <> 200
   /\ forall v st, fst (update_contact py_repr id data file) <> (Contact v, st))
  \/ exists fields raw ms new,
      data = JObj fields
      /\ lookup (lit "name") fields = Some (JStr raw)
      /\ nonempty (strip raw) = true
      /\ methods_field fields = JArr ms
      /\ int64 id = true
      /\ has_contact file id = true
      /\ encodable (strip raw) = true
      /\ encodable_option (coerce_address py_repr (address_field fields))
         = true
      /\ fst (update_contact py_repr id data file)
         = (Contact (mk_view id (strip raw)
                       (coerce_address py_repr (address_field fields))
                       true ms), 200)
      /\ contacts (snd (update_contact py_repr id data file))
         = List.map (set_name_address (strip raw)
                       (coerce_address py_repr (address_field fields)) id)
                    (contacts file)
      /\ seq_contacts (snd (update_contact py_repr id data file))
         = seq_contacts file
      /\ contact_methods (snd (update_contact py_repr id data file))
         = filter (fun m => negb (m_contact_id m =? id))
                  (contact_methods file) ++ new
      /\ Forall (method_of id) new.
Proof.
  destruct (update_contact_shape id data file)
    as [H|(fields & raw & ms & -> & Hname & Hne & Hms)]; [left; exact H|].
  rewrite (update_contact_checked id fields raw ms file Hname Hne Hms).
  destruct (int64 id) eqn:Hid; cbn [negb];
    [|left; repeat split; discriminate].
  destruct (has_contact file id) eqn:Hex; cbn [negb];
    [|left; repeat split; discriminate].
  destruct (encodable (strip raw)) eqn:Hn; cbn [andb negb];
    [|left; repeat split; discriminate].
  destruct (encodable_option _) eqn:Ha; cbn [negb];
    [|left; repeat split; discriminate].
  match goal with
  | |- context [insert_wellformed_methods ?c ?i ms] =>
      destruct (insert_wellformed_methods c i ms) as [c3|] eqn:E
  end; cbn [bind serve fst snd]; [|left; repeat split; discriminate].
  right. exists fields, raw, ms.
  destruct (insert_wellformed_methods_rows _ _ _ _ E)
    as (Hc & Hs & new & Hm & Hall).
  cbn [work contacts contact_methods seq_contacts] in Hc, Hs, Hm.
  exists new. unfold commit. rewrite Hc, Hs, Hm. auto 15.
Qed.

(** Every answer of [update_contact] with a contact says favorite,
    whatever the row holds. *)
Lemma update_contact_always_favorite
      (id : Z) (data : json) (file file' : database)
      (v : contact_view) (st : Z) :
  update_contact py_repr id data file = ((Contact v, st), file') ->
  v_is_favorite v = true.
Proof.
  intros H.
  destruct (update_contact_effect id data file)
    as [(_ & _ & Hno)|(fields & raw & ms & new & _ & _ & _ & _ & _ & _ & _ & _
                       & Hans & _)].
  - exfalso. apply (Hno v st). rewrite H. reflexivity.
  - rewrite H in Hans. cbn [fst] in Hans. injection Hans as -> _.
    reflexivity.
Qed.

End UpdateFacts.

Section UpdateProperties.

Variable py_repr : json -> pystr.



(** C10.  Whenever [update_contact] answers with a contact, the methods
    of the answer are the list of the body as it came (the empty list
    for a body without the field), whatever part of it was stored. *)
Theorem update_contact_echoes_methods
        (id : Z) (data : json) (file file' : database)
        (v : contact_view) (st : Z) :
  update_contact py_repr id data file = ((Contact v, st), file') ->
  exists fields,
    data = JObj fields /\ methods_field fields = JArr (v_methods v).
Proof.
  intros H.
  destruct (update_contact_effect py_repr id data file)
    as [(_ & _ & Hno)|(fields & raw & ms & new & -> & _ & _ & Hms & _ & _ & _
                       & _ & Hans & _)].
  - exfalso. apply (Hno v st). rewrite H. reflexivity.
  - rewrite H in Hans. cbn [fst] in Hans. injection Hans as -> _.
    exists fields. split; [reflexivity | exact Hms].
Qed.

(** The answer can differ from the store: an incomplete entry of the
    body is in the former and not in the latter. *)
Example update_contact_answer_differs_from_store :
  exists v file' row,
    update_contact py_repr 1 Sample.rename_with_methods Sample.with_ann
    = ((Contact v, 200), file')
    /\ contact_of file' 1 = Some row
    /\ v_methods v <> v_methods (get_contact_with_methods (connect file') row).
Proof.
  do 3 eexists. split; [reflexivity|]. split; [reflexivity|].
  intros H. discriminate H.
Qed.

End UpdateProperties.

(** ** Create *)


(** Entries that all have a non-empty type and value pass the check
    loop. *)
Lemma methods_all_valid_complete (ms : list json) :
  forallb complete_entry ms = true ->
  methods_all_valid ms = Ok true.
Proof.
  intros Hall.
  assert (Hobj : forallb is_object ms = true
                 /\ forallb has_type_and_value ms = true).
  { induction ms as [|x l IH]; simpl in *; auto.
    apply andb_true_iff in Hall as [Hx Hl].
    destruct (complete_entry_object x Hx) as (-> & -> & _).
    destruct (IH Hl) as [-> ->]. auto. }
  destruct Hobj as [Hobj Hval].
  rewrite (methods_all_valid_objects _ Hobj), Hval. reflexivity.
Qed.

Section CreateFacts.

Variable py_repr : json -> pystr.

(** [add_contact] on a non-empty object whose name, if any, is text:
    the checks in their order, then the writes. *)
Lemma add_contact_object (fields : list (pystr * json)) (file : database) :
  fields <> [] ->
  name_is_text fields = true ->
  add_contact py_repr (JObj fields) file =
  serve file (
    if negb (nonempty (strip (name_text fields)))
    then Ok ((Error EmptyName, 400), file)
    else
      match methods_field fields with
      | JArr ((_ :: _) as ms) =>
          valid <- methods_all_valid ms ;;
          if negb valid then Ok ((Error MethodNeedsTypeValue, 400), file)
          else
            inserted <-
              insert_contact (connect file) (strip (name_text fields))
                (coerce_address py_repr (address_field fields)) ;;
            let (conn1, contact_id) := inserted in
            conn2 <- insert_all_methods conn1 contact_id ms ;;
            Ok ((Contact (mk_view contact_id (strip (name_text fields))
                            (coerce_address py_repr (address_field fields))
                            false ms), 201),
                commit conn2)
      | _ => Ok ((Error NeedOneMethod, 400), file)
      end).
Proof.
  intros Hne Htext. unfold add_contact.
  destruct fields as [|f fields']; [congruence|].
  set (fields := f :: fields') in *. cbn [truthy negb].
  change (match fields with [] => false | _ :: _ => true end) with true.
  cbn [negb]. unfold py_get, name_is_text, name_text, methods_field,
              address_field in *.
  destruct (lookup (lit "name") fields) as [[| | |s| |]|];
    try discriminate Htext; cbn [bind py_strip];
    destruct (lookup (lit "address") fields); cbn [bind];
    destruct (lookup (lit "methods") fields); cbn [bind]; reflexivity.
Qed.

(** A body that [add_contact] turns down before its check loop, or one
    that reaches it. *)
Lemma add_contact_shape (data : json) (file : database) :
  (snd (add_contact py_repr data file) = file
   /\ snd (fst (add_contact py_repr data file)) <> 201
   /\ forall v st, fst (add_contact py_repr data file) <> (Contact v, st))
  \/ exists fields raw m ms,
      data = JObj fields
      /\ lookup (lit "name") fields = Some (JStr raw)
      /\ nonempty (strip raw) = true
      /\ methods_field fields = JArr (m :: ms).
Proof.
  unfold add_contact.
  destruct (truthy data) eqn:Ht; cbn [negb];
    [|left; repeat split; discriminate].
  destruct data as [| | | | |fields];
    try (left; repeat split; discriminate).
  unfold py_get.
  destruct (lookup (lit "name") fields) as [[| | |raw| |]|] eqn:Hname;
    cbn [bind py_strip serve];
    try (left; repeat split; discriminate).
  - destruct (lookup (lit "address") fields); cbn [bind];
      (destruct (lookup (lit "methods") fields) as [mf|] eqn:Hm; cbn [bind];
       (destruct (nonempty (strip raw)) eqn:Hne; cbn [negb serve];
        [|left; repeat split; discriminate]);
       [destruct mf as [| | | |[|m ms]|];
        try (left; repeat split; discriminate)
       |left; repeat split; discriminate];
       right; exists fields, raw, m, ms; unfold methods_field;
       rewrite Hm; auto).
  - destruct (lookup (lit "address") fields); cbn [bind];
      destruct (lookup (lit "methods") fields); cbn [bind];
      left; repeat split; discriminate.
Qed.

(** What [add_contact] does with a body that reaches the check loop. *)
Lemma add_contact_checked
      (fields : list (pystr * json)) (raw : pystr) (ms : list json)
      (file : database) :
  lookup (lit "name") fields = Some (JStr raw) ->
  nonempty (strip raw) = true ->
  methods_field fields = JArr ms ->
  ms <> [] ->
  let id := next_rowid (seq_contacts file) (List.map c_id (contacts file)) in
  let address := coerce_address py_repr (address_field fields) in
  add_contact py_repr (JObj fields) file =
  serve file (
    valid <- methods_all_valid ms ;;
    if negb valid then Ok ((Error MethodNeedsTypeValue, 400), file)
    else if negb (encodable (strip raw) && encodable_option address)
    then Raise UnicodeEncodeError
    else
      conn2 <- insert_all_methods
                 (mk_conn
                    (mk_db (contacts file
                            ++ [mk_contact id (strip raw) address 0])
                           (contact_methods file) id
                           (seq_contact_methods file))
                    false)
                 id ms ;;
      Ok ((Contact (mk_view id (strip raw) address false ms), 201),
          commit conn2)).
Proof.
  intros Hname Hne Hms Hnil id address.
  assert (Hfields : fields <> []) by (destruct fields; discriminate).
  assert (Htext : name_is_text fields = true)
    by (unfold name_is_text; rewrite Hname; reflexivity).
  assert (Hnt : name_text fields = raw)
    by (unfold name_text; rewrite Hname; reflexivity).
  rewrite (add_contact_object fields file Hfields Htext).
  rewrite Hnt, Hne, Hms. cbn [negb].
  destruct ms as [|m ms]; [congruence|].
  destruct (methods_all_valid (m :: ms)) as [[|]|]; cbn [bind negb serve];
    try reflexivity.
  fold address. unfold insert_contact, bind_text.
  destruct (encodable (strip raw)); cbn [andb negb bind serve];
    [|reflexivity].
  destruct address as [a|]; cbn [bind_optional_text encodable_option].
  - unfold bind_text. destruct (encodable a); cbn [negb bind serve];
      reflexivity.
  - reflexivity.
Qed.

(** Create in full: either the answer is not a 201 and the file is as it
    was, or the body passed the checks, everything could be bound, the
    answer is a 201 and the file has one more contact, under the next
    id, and one more method row per entry of the body, in order. *)
Lemma add_contact_effect (data : json) (file : database) :
  let id := next_rowid (seq_contacts file) (List.map c_id (contacts file)) in
  (snd (add_contact py_repr data file) = file
   /\ snd (fst (add_contact py_repr data file)) <> 201
   /\ forall v st, fst (add_contact py_repr data file) <> (Contact v, st))
  \/ exists fields raw ms new,
      data = JObj fields
      /\ lookup (lit "name") fields = Some (JStr raw)
      /\ nonempty (strip raw) = true
      /\ methods_field fields = JArr ms
      /\ ms <> []
      /\ methods_all_valid ms = Ok true
      /\ encodable (strip raw) = true
      /\ encodable_option (coerce_address py_repr (address_field fields))
         = true
      /\ fst (add_contact py_repr data file)
         = (Contact (mk_view id (strip raw)
                       (coerce_address py_repr (address_field fields))
                       false ms), 201)
      /\ contacts (snd (add_contact py_repr data file))
         = contacts file
           ++ [mk_contact id (strip raw)
                 (coerce_address py_repr (address_field fields)) 0]
      /\ seq_contacts (snd (add_contact py_repr data file)) = id
      /\ contact_methods (snd (add_contact py_repr data file))
         = contact_methods file ++ new
      /\ Forall2 (entry_row id) ms new
      /\ Forall (method_of id) new.
Proof.
  intros id.
  destruct (add_contact_shape data file)
    as [H|(fields & raw & m & ms & -> & Hname & Hne & Hms)]; [left; exact H|].
  assert (Hnil : m :: ms <> []) by discriminate.
  rewrite (add_contact_checked fields raw (m :: ms) file Hname Hne Hms Hnil).
  fold id.
  destruct (methods_all_valid (m :: ms)) as [[|]|] eqn:Hval;
    cbn [bind negb serve]; try (left; repeat split; discriminate).
  destruct (encodable (strip raw)) eqn:Hn; cbn [andb negb serve];
    [|left; repeat split; discriminate].
  destruct (encodable_option _) eqn:Ha; cbn [negb serve];
    [|left; repeat split; discriminate].
  match goal with
  | |- context [insert_all_methods ?c ?i (m :: ms)] =>
      destruct (insert_all_methods c i (m :: ms)) as [c2|] eqn:E
  end; cbn [bind serve fst snd]; [|left; repeat split; discriminate].
  right. exists fields, raw, (m :: ms).
  destruct (insert_all_methods_rows _ _ _ _ Hval E)
    as (Hc & Hs & new & Hm & Hrows & Hall).
  cbn [work contacts contact_methods seq_contacts] in Hc, Hs, Hm.
  exists new. unfold commit. rewrite Hc, Hs, Hm. auto 20.
Qed.

(** Create on a body of the data model, in full. *)
Lemma add_contact_complete
      (fields : list (pystr * json)) (raw : pystr) (ms : list json)
      (file : database) :
  lookup (lit "name") fields = Some (JStr raw) ->
  nonempty (strip raw) = true ->
  methods_field fields = JArr ms ->
  ms <> [] ->
  forallb complete_entry ms = true ->
  forallb encodable_entry ms = true ->
  encodable (strip raw) = true ->
  let id := next_rowid (seq_contacts file) (List.map c_id (contacts file)) in
  let address := coerce_address py_repr (address_field fields) in
  encodable_option address = true ->
  exists new seq',
    add_contact py_repr (JObj fields) file
    = ((Contact (mk_view id (strip raw) address false ms), 201),
       mk_db (contacts file ++ [mk_contact id (strip raw) address 0])
             (contact_methods file ++ new) id seq')
    /\ List.map pair_of_method new = complete_pairs ms
    /\ Forall (fun m => m_contact_id m = id) new.
Proof.
  intros Hname Hne Hms Hnil Hall Hcod Hn id address Ha.
  rewrite (add_contact_checked fields raw ms file Hname Hne Hms Hnil).
  fold id address.
  rewrite (methods_all_valid_complete ms Hall), Hn, Ha. cbn [bind negb andb].
  match goal with
  | |- context [insert_all_methods ?c ?i ms] =>
      destruct (insert_all_methods_complete i ms c eq_refl Hall Hcod)
        as (new & seq' & Hrun & Hmap & Hown); rewrite Hrun
  end.
  cbn [bind serve commit work contacts contact_methods seq_contacts].
  exists new, seq'. auto.
Qed.



End CreateFacts.

(** ** Import *)

(** The cell the loop reads is the trimmed text of the column. *)
Lemma cell_column (r : row) (k : pystr) : cell r k = strip (column r k).
Proof. reflexivity. Qed.

Lemma unencodable_nonempty (s : pystr) :
  encodable s = false -> nonempty s = true.
Proof. destruct s; [discriminate | reflexivity]. Qed.

Lemma insert_if_present_rows (c : conn) (id : Z) (kind x : pystr) :
  foreign_keys c = false ->
  encodable kind = true ->
  encodable x = true ->
  exists new seq',
    insert_if_present c id kind x =
    Ok (mk_conn (mk_db (contacts (work c)) (contact_methods (work c) ++ new)
                       (seq_contacts (work c)) seq') false)
    /\ List.map owner_and_pair new
       = if nonempty x then [(id, (kind, x))] else [].
Proof.
  intros Hfk Hk Hx. unfold insert_if_present. destruct (nonempty x).
  - rewrite (bind_text_ok kind Hk), (bind_text_ok x Hx).
    unfold insert_method. cbn [bind text_not_null]. rewrite Hfk. cbn [andb].
    eexists [_], _. split; reflexivity.
  - exists [], (seq_contact_methods (work c)). rewrite app_nil_r.
    destruct c as [[? ? ? ?] ?]; simpl in *; subst. split; reflexivity.
Qed.

Lemma insert_if_present_unencodable (c : conn) (id : Z) (kind x : pystr) :
  encodable kind = true ->
  encodable x = false ->
  insert_if_present c id kind x = Raise UnicodeEncodeError.
Proof.
  intros Hk Hx. unfold insert_if_present.
  rewrite (unencodable_nonempty x Hx), (bind_text_ok kind Hk).
  unfold bind_text. rewrite Hx. reflexivity.
Qed.

(** A row whose trimmed name is empty is passed over. *)
Lemma import_rows_skip (c : conn) (count : Z) (r : row) (rest : list row) :
  kept_row r = false ->
  import_rows c count (r :: rest) = import_rows c count rest.
Proof.
  intros H. cbn [import_rows]. rewrite cell_column.
  change (strip (column r col_name)) with (trimmed_name r).
  unfold kept_row in H. rewrite H. reflexivity.
Qed.

(** A kept row whose fields can be bound: its contact and its methods
    are added and the loop goes on. *)
Lemma import_rows_keep (c : conn) (count : Z) (r : row) (rest : list row) :
  foreign_keys c = false ->
  kept_row r = true ->
  row_encodable r = true ->
  let first := next_rowid (seq_contacts (work c))
                          (List.map c_id (contacts (work c))) in
  exists new seq',
    import_rows c count (r :: rest)
    = import_rows
        (mk_conn (mk_db (contacts (work c) ++ [row_contact first r])
                        (contact_methods (work c) ++ new) first seq')
                 false)
        (count + 1) rest
    /\ List.map owner_and_pair new = List.map (pair first) (row_methods r).
Proof.
  intros Hfk Hkept Henc first. cbn [import_rows]. rewrite !cell_column.
  change (strip (column r col_name)) with (trimmed_name r).
  change (strip (column r col_phone)) with (trimmed_phone r).
  change (strip (column r col_email)) with (trimmed_email r).
  change (strip (column r col_address)) with (trimmed_address r).
  unfold kept_row in Hkept. rewrite Hkept. cbn [negb].
  unfold row_encodable in Henc.
  apply andb_true_iff in Henc as [Henc Ha].
  apply andb_true_iff in Henc as [Henc He].
  apply andb_true_iff in Henc as [Hn Hp].
  set (addr := if nonempty (trimmed_address r)
               then Some (trimmed_address r) else None).
  assert (Haddr : exists v, bind_optional_text addr = Ok v).
  { apply bind_optional_text_ok. unfold addr.
    destruct (nonempty (trimmed_address r)); [exact Ha | reflexivity]. }
  destruct Haddr as (bound & Hbound).
  unfold insert_contact. rewrite (bind_text_ok _ Hn), Hbound. cbn [bind].
  fold first.
  set (c1 := mk_conn (mk_db (contacts (work c)
                             ++ [mk_contact first (trimmed_name r) addr 0])
                            (contact_methods (work c)) first
                            (seq_contact_methods (work c)))
                     (foreign_keys c)).
  assert (Hfk1 : foreign_keys c1 = false) by exact Hfk.
  destruct (insert_if_present_rows c1 first (lit "phone")
              (trimmed_phone r) Hfk1 eq_refl Hp) as (n2 & s2 & -> & Hn2).
  cbn [bind].
  match goal with |- context [insert_if_present ?c2 _ (lit "email") _] =>
    destruct (insert_if_present_rows c2 first (lit "email")
                (trimmed_email r) eq_refl eq_refl He) as (n3 & s3 & -> & Hn3)
  end.
  cbn [bind work contacts contact_methods seq_contacts].
  match goal with |- context [insert_if_present ?c3 _ (lit "address") _] =>
    destruct (insert_if_present_rows c3 first (lit "address")
                (trimmed_address r) eq_refl eq_refl Ha)
      as (n4 & s4 & -> & Hn4)
  end.
  cbn [bind work contacts contact_methods seq_contacts c1].
  exists (n2 ++ n3 ++ n4), s4. split.
  - rewrite <- !app_assoc. reflexivity.
  - rewrite !map_app, Hn2, Hn3, Hn4. unfold row_methods.
    rewrite !map_app.
    destruct (nonempty (trimmed_phone r)), (nonempty (trimmed_email r)),
      (nonempty (trimmed_address r)); reflexivity.
Qed.

(** A kept row with a field that cannot be bound stops the loop. *)
Lemma import_rows_stop (c : conn) (count : Z) (r : row) (rest : list row) :
  foreign_keys c = false ->
  kept_row r = true ->
  row_encodable r = false ->
  import_rows c count (r :: rest) = Raise UnicodeEncodeError.
Proof.
  intros Hfk Hkept Henc. cbn [import_rows]. rewrite !cell_column.
  change (strip (column r col_name)) with (trimmed_name r).
  change (strip (column r col_phone)) with (trimmed_phone r).
  change (strip (column r col_email)) with (trimmed_email r).
  change (strip (column r col_address)) with (trimmed_address r).
  unfold kept_row in Hkept. rewrite Hkept. cbn [negb].
  unfold row_encodable in Henc. unfold insert_contact.
  unfold bind_text at 1.
  destruct (encodable (trimmed_name r)) eqn:Hn; cbn [bind]; [|reflexivity].
  destruct (encodable (trimmed_address r)) eqn:Ha.
  2:{ rewrite (unencodable_nonempty _ Ha). cbn [bind_optional_text].
      unfold bind_text. rewrite Ha. reflexivity. }
  set (addr := if nonempty (trimmed_address r)
               then Some (trimmed_address r) else None).
  assert (Haddr : exists v, bind_optional_text addr = Ok v).
  { apply bind_optional_text_ok. unfold addr.
    destruct (nonempty (trimmed_address r)); [exact Ha | reflexivity]. }
  destruct Haddr as (bound & ->). cbn [bind].
  set (first := next_rowid (seq_contacts (work c))
                           (List.map c_id (contacts (work c)))).
  set (c1 := mk_conn _ (foreign_keys c)).
  assert (Hfk1 : foreign_keys c1 = false) by exact Hfk.
  destruct (encodable (trimmed_phone r)) eqn:Hp.
  2:{ rewrite (insert_if_present_unencodable c1 first (lit "phone") _
                 eq_refl Hp). reflexivity. }
  destruct (insert_if_present_rows c1 first (lit "phone")
              (trimmed_phone r) Hfk1 eq_refl Hp) as (n2 & s2 & -> & _).
  cbn [bind].
  destruct (encodable (trimmed_email r)) eqn:He; [discriminate Henc|].
  rewrite (insert_if_present_unencodable _ first (lit "email") _ eq_refl He).
  reflexivity.
Qed.

(** With every kept row free of surrogates the row loop never raises:
    it adds the contacts and methods of the kept rows, in order, under
    fresh consecutive ids, and counts them. *)
Lemma import_rows_kept (rs : list row) :
  forall (c : conn) (count : Z),
    foreign_keys c = false ->
    forallb row_encodable (filter kept_row rs) = true ->
    let first := next_rowid (seq_contacts (work c))
                            (List.map c_id (contacts (work c))) in
    exists new seqm',
      import_rows c count rs =
      Ok (mk_conn
            (mk_db (contacts (work c)
                    ++ imported_contacts first (filter kept_row rs))
                   (contact_methods (work c) ++ new)
                   (match filter kept_row rs with
                    | [] => seq_contacts (work c)
                    | _ :: _ =>
                        first + Z.of_nat (List.length (filter kept_row rs)) - 1
                    end)
                   seqm')
            false,
          count + Z.of_nat (List.length (filter kept_row rs)))
      /\ List.map owner_and_pair new
         = imported_methods first (filter kept_row rs).
Proof.
  induction rs as [|r rs IH]; intros c count Hfk Henc first.
  - exists [], (seq_contact_methods (work c)).
    simpl. rewrite !app_nil_r, Z.add_0_r.
    destruct c as [[? ? ? ?] ?]; simpl in *; subst. split; reflexivity.
  - cbn [filter] in *. destruct (kept_row r) eqn:Hkept.
    2:{ rewrite (import_rows_skip c count r rs Hkept). apply IH; assumption. }
    cbn [forallb] in Henc. apply andb_true_iff in Henc as [Hr Henc].
    destruct (import_rows_keep c count r rs Hfk Hkept Hr)
      as (n1 & s1 & -> & Hn1).
    fold first in Hn1 |- *.
    match goal with |- context [import_rows ?c4 _ rs] =>
      destruct (IH c4 (count + 1) eq_refl Henc) as (new & sm & -> & Hnew)
    end.
    cbn [work contacts contact_methods seq_contacts] in *.
    rewrite map_app in Hnew. cbn [List.map c_id row_contact] in Hnew.
    rewrite map_app. cbn [List.map c_id row_contact].
    pose proof (next_rowid_after_insert (seq_contacts (work c))
                  (List.map c_id (contacts (work c)))) as Hnext.
    fold first in Hnext. rewrite Hnext in Hnew. rewrite Hnext.
    exists (n1 ++ new), sm. split.
    + cbn [imported_contacts List.length].
      rewrite <- !app_assoc. cbn [app].
      assert (Hseq : match filter kept_row rs with
                     | [] => first
                     | _ :: _ =>
                         first + 1
                         + Z.of_nat (List.length (filter kept_row rs)) - 1
                     end
                     = first + Z.of_nat (S (List.length (filter kept_row rs)))
                       - 1)
        by (destruct (filter kept_row rs); cbn [List.length]; lia).
      rewrite Hseq.
      replace (count + 1 + Z.of_nat (List.length (filter kept_row rs)))
        with (count + Z.of_nat (S (List.length (filter kept_row rs))))
        by lia.
      reflexivity.
    + cbn [imported_methods]. rewrite map_app, Hn1, Hnew. reflexivity.
Qed.

(** A kept row with a surrogate in one of its fields makes the row loop
    raise. *)
Lemma import_rows_unencodable (rs : list row) :
  forall (c : conn) (count : Z),
    foreign_keys c = false ->
    forallb row_encodable (filter kept_row rs) = false ->
    import_rows c count rs = Raise UnicodeEncodeError.
Proof.
  induction rs as [|r rs IH]; intros c count Hfk Henc.
  - discriminate Henc.
  - cbn [filter] in Henc. destruct (kept_row r) eqn:Hkept.
    2:{ rewrite (import_rows_skip c count r rs Hkept). apply IH; assumption. }
    cbn [forallb] in Henc. destruct (row_encodable r) eqn:Hr.
    + destruct (import_rows_keep c count r rs Hfk Hkept Hr)
        as (n1 & s1 & -> & _).
      apply IH; [reflexivity | exact Henc].
    + apply import_rows_stop; assumption.
Qed.

(** Import in full: the header lacks a required column and the answer
    is the 400 for that; or a kept row cannot be bound, the answer is
    the 400 for a file that could not be parsed; or the answer is a 200
    and the contacts and methods of the kept rows are appended.  The
    file changes in the last case only. *)
Lemma import_contacts_effect (records : list (list pystr)) (file : database) :
  let kept := kept_rows records in
  let first := next_rowid (seq_contacts file) (List.map c_id (contacts file)) in
  (has_required_fields (fieldnames records) = false
   /\ import_contacts records file = ((Error MissingColumns, 400), file))
  \/ (has_required_fields (fieldnames records) = true
      /\ forallb row_encodable kept = false
      /\ import_contacts records file
         = ((Error (ParseFailed UnicodeEncodeError), 400), file))
  \/ (has_required_fields (fieldnames records) = true
      /\ forallb row_encodable kept = true
      /\ fst (import_contacts records file)
         = (Imported (Z.of_nat (List.length kept)), 200)
      /\ contacts (snd (import_contacts records file))
         = contacts file ++ imported_contacts first kept
      /\ seq_contacts (snd (import_contacts records file))
         = match kept with
           | [] => seq_contacts file
           | _ :: _ => first + Z.of_nat (List.length kept) - 1
           end
      /\ exists new,
          contact_methods (snd (import_contacts records file))
          = contact_methods file ++ new
          /\ List.map owner_and_pair new = imported_methods first kept).
Proof.
  intros kept first. unfold import_contacts.
  destruct (has_required_fields (fieldnames records)); cbn [negb];
    [right | left; auto].
  destruct (forallb row_encodable kept) eqn:Henc; [right | left].
  - destruct (import_rows_kept (rows records) (connect file) 0 eq_refl Henc)
      as (new & sm & Hrun & Hnew).
    rewrite Hrun. cbn [fst snd commit work contacts contact_methods
                       seq_contacts connect] in *.
    fold kept first.
    split; [reflexivity|]. split; [reflexivity|]. split; [reflexivity|].
    split; [reflexivity|]. split; [reflexivity|]. exists new. auto.
  - rewrite (import_rows_unencodable (rows records) (connect file) 0 eq_refl
               Henc).
    auto.
Qed.

(** *** Decoded uploads *)

Lemma dict_set_encodable (k : pystr) (v : option pystr) (d : row) :
  encodable_option v = true ->
  Forall (fun kv => encodable_option (snd kv) = true) d ->
  Forall (fun kv => encodable_option (snd kv) = true) (dict_set k v d).
Proof.
  intros Hv. induction 1 as [|[k' v'] d Hkv Hd IH]; cbn [dict_set].
  - constructor; [exact Hv | constructor].
  - destruct (eqb k k'); constructor; auto.
Qed.

Lemma dict_get_encodable (k : pystr) (d : row) :
  Forall (fun kv => encodable_option (snd kv) = true) d ->
  encodable_option (dict_get k d) = true.
Proof.
  induction 1 as [|[k' v'] d Hkv Hd IH]; cbn [dict_get].
  - reflexivity.
  - destruct (eqb k k'); [exact Hkv | exact IH].
Qed.

Lemma make_row_encodable (names record : list pystr) :
  forallb encodable record = true ->
  Forall (fun kv => encodable_option (snd kv) = true) (make_row names record).
Proof.
  intros Hrec. unfold make_row.
  set (cells := List.map Some record ++ repeat None _).
  assert (Hcells : Forall (fun v => encodable_option v = true) cells).
  { unfold cells. apply Forall_app. split.
    - rewrite Forall_map. rewrite forallb_forall in Hrec.
      apply Forall_forall. intros s Hs. exact (Hrec s Hs).
    - apply Forall_forall. intros v Hv. apply repeat_spec in Hv.
      rewrite Hv. reflexivity. }
  assert (Hpairs : Forall (fun kv => encodable_option (snd kv) = true)
                          (combine names cells)).
  { apply Forall_forall. intros [k v] Hin. apply in_combine_r in Hin.
    rewrite Forall_forall in Hcells. exact (Hcells v Hin). }
  assert (Hfold : forall l d,
             Forall (fun kv => encodable_option (snd kv) = true) l ->
             Forall (fun kv => encodable_option (snd kv) = true) d ->
             Forall (fun kv => encodable_option (snd kv) = true)
                    (fold_left (fun d kv => dict_set (fst kv) (snd kv) d) l d)).
  { induction l as [|kv l IH]; intros d Hl Hd; cbn [fold_left]; [exact Hd|].
    inversion Hl; subst. apply IH; [assumption|].
    apply dict_set_encodable; assumption. }
  apply Hfold; [exact Hpairs | constructor].
Qed.

Lemma column_encodable (r : row) (k : pystr) :
  Forall (fun kv => encodable_option (snd kv) = true) r ->
  encodable (column r k) = true.
Proof.
  intros H. pose proof (dict_get_encodable k r H) as Hk. unfold column.
  destruct (dict_get k r); [exact Hk | reflexivity].
Qed.

(** The rows of a decoded upload can all be bound. *)
Lemma decoded_rows_encodable (records : list (list pystr)) :
  decoded records = true ->
  forallb row_encodable (kept_rows records) = true.
Proof.
  intros Hdec. apply forallb_forall. intros r Hr.
  unfold kept_rows in Hr. apply filter_In in Hr as [Hr _].
  unfold rows in Hr. apply in_map_iff in Hr as (record & <- & Hrec).
  apply filter_In in Hrec as [Hrec _].
  assert (Hin : In record records).
  { destruct records as [|h t]; [destruct Hrec | right; exact Hrec]. }
  unfold decoded in Hdec. rewrite forallb_forall in Hdec.
  pose proof (make_row_encodable (fieldnames records) record
                (Hdec record Hin)) as Hrow.
  unfold row_encodable, trimmed_name, trimmed_phone, trimmed_email,
    trimmed_address.
  rewrite !(encodable_strip _ (column_encodable _ _ Hrow)). reflexivity.
Qed.

(** C8.  An import of a decoded upload whose header has the required
    columns answers 200: a row whose trimmed name is empty adds nothing
    and is not counted; every other row is counted and adds, in file
    order, one contact with the trimmed name (address null when the
    trimmed field is empty) and one method per non-empty trimmed phone,
    email and address, so that a non-empty address is both the address
    of the contact and an "address" method; the count is the number of
    rows that were not skipped. *)
Theorem import_contacts_rows
        (records : list (list pystr)) (file : database) :
  decoded records = true ->
  has_required_fields (fieldnames records) = true ->
  let kept := kept_rows records in
  let first := next_rowid (seq_contacts file) (List.map c_id (contacts file)) in
  exists file',
    import_contacts records file =
    ((Imported (Z.of_nat (List.length kept)), 200), file')
    /\ contacts file' = contacts file ++ imported_contacts first kept
    /\ List.map owner_and_pair (contact_methods file')
       = List.map owner_and_pair (contact_methods file)
         ++ imported_methods first kept.
Proof.
  intros Hdec Hreq kept first.
  pose proof (decoded_rows_encodable records Hdec) as Henc.
  destruct (import_contacts_effect records file)
    as [(Hno & _)|[(_ & Hbad & _)|(_ & _ & Hans & Hc & _ & new & Hm & Hnew)]].
  - rewrite Hreq in Hno. discriminate Hno.
  - rewrite Henc in Hbad. discriminate Hbad.
  - destruct (import_contacts records file) as [answer file'].
    cbn [fst snd] in *. exists file'. split; [|split].
    + rewrite Hans. reflexivity.
    + exact Hc.
    + rewrite Hm, map_app, Hnew. reflexivity.
Qed.

(** ** The rows an import adds *)

(** The owner of every method an import adds is a contact it adds. *)
Lemma imported_methods_owner (rs : list row) :
  forall (first owner : Z) (p : pystr * pystr),
    In (owner, p) (imported_methods first rs) ->
    existsb (fun r => c_id r =? owner) (imported_contacts first rs) = true.
Proof.
  induction rs as [|r rs IH]; intros first owner p; cbn [imported_methods
    imported_contacts existsb In]; [tauto|].
  rewrite in_app_iff, in_map_iff. intros [(q & Hq & _)|Hin].
  - injection Hq as <- _. cbn [row_contact c_id]. rewrite Z.eqb_refl.
    reflexivity.
  - rewrite (IH _ _ _ Hin). apply orb_true_r.
Qed.

Lemma imported_contacts_rows (rs : list row) :
  forall (first : Z) (r : contact_row),
    In r (imported_contacts first rs) ->
    first <= c_id r < first + Z.of_nat (List.length rs)
    /\ c_is_favorite r = 0
    /\ exists x, In x rs /\ c_name r = trimmed_name x.
Proof.
  induction rs as [|x rs IH]; intros first r;
    cbn [imported_contacts In List.length]; [tauto|].
  intros [<-|Hin].
  - cbn [row_contact c_id c_is_favorite c_name].
    split; [lia|]. split; [reflexivity|]. exists x. auto.
  - destruct (IH _ _ Hin) as (Hb & Hf & y & Hy & Hn).
    split; [lia|]. split; [exact Hf|]. exists y. auto.
Qed.

Lemma imported_contacts_distinct (rs : list row) :
  forall first : Z, NoDup (List.map c_id (imported_contacts first rs)).
Proof.
  induction rs as [|x rs IH]; intros first; cbn [imported_contacts List.map].
  - constructor.
  - constructor; [|apply IH].
    rewrite in_map_iff. intros (r & E & Hin).
    apply imported_contacts_rows in Hin. cbn [row_contact c_id] in E. lia.
Qed.

Lemma row_methods_nonempty (r : row) (p : pystr * pystr) :
  In p (row_methods r) -> fst p <> [] /\ snd p <> [].
Proof.
  unfold row_methods. rewrite !in_app_iff.
  intros [H|[H|H]];
    match type of H with
    | In _ (if nonempty ?c then _ else _) =>
        destruct (nonempty c) eqn:E; [|destruct H];
        destruct H as [<-|[]]; cbn [fst snd];
        split; [discriminate | apply nonempty_true, E]
    end.
Qed.

Lemma imported_methods_rows (rs : list row) :
  forall (first owner : Z) (p : pystr * pystr),
    In (owner, p) (imported_methods first rs) ->
    first <= owner < first + Z.of_nat (List.length rs)
    /\ fst p <> [] /\ snd p <> [].
Proof.
  induction rs as [|x rs IH]; intros first owner p;
    cbn [imported_methods In List.length]; [tauto|].
  rewrite in_app_iff, in_map_iff. intros [(q & E & Hq)|Hin].
  - injection E as <- <-. split; [lia|]. apply (row_methods_nonempty x), Hq.
  - destruct (IH _ _ _ Hin) as (Hb & Hp). split; [lia | exact Hp].
Qed.

(** ** The invariant of the file *)

Lemma empty_db_well_formed : well_formed empty_db.
Proof.
  constructor; simpl; try (intros ? []); try lia. constructor.
Qed.

(** The file after a ToggleFavorite: as it was, or with the flag of the
    contact set to 0 or 1. *)
Lemma toggle_favorite_file (id : Z) (file : database) :
  snd (toggle_favorite id file) = file
  \/ (has_contact file id = true
      /\ exists status,
          (status = 0 \/ status = 1)
          /\ snd (toggle_favorite id file)
             = mk_db (List.map (set_favorite status id) (contacts file))
                     (contact_methods file) (seq_contacts file)
                     (seq_contact_methods file)).
Proof.
  destruct (int64 id) eqn:Hid.
  2:{ left. rewrite (toggle_favorite_overflow id file Hid). reflexivity. }
  destruct (contact_of file id) as [r|] eqn:Hr.
  - right. split; [apply has_contact_find; exists r; exact Hr|].
    rewrite (toggle_favorite_existing id file r Hid Hr). cbn [snd].
    eexists. split; [|reflexivity].
    destruct (c_is_favorite r =? 1); auto.
  - left. rewrite (toggle_favorite_missing id file Hid
                     (contact_of_none file id Hr)).
    reflexivity.
Qed.

Section Invariant.

Variable py_repr : json -> pystr.

(** Every request keeps the invariant. *)
Lemma perform_well_formed (op : operation) (file : database) :
  well_formed file -> well_formed (snd (perform py_repr op file)).
Proof.
  intros [Hnd Hid Hown Hmeth Hname Hflag Hseq0].
  destruct op as [data|id data|id|id|records]; cbn [perform].
  - (* Create *)
    destruct (add_contact_effect py_repr data file)
      as [[E _]|(fields & raw & ms & new & _ & _ & Hne & _ & _ & _ & _ & _ & _
                 & Ec & Es & Em & _ & Hall)].
    { rewrite E. constructor; assumption. }
    destruct (next_rowid_above (seq_contacts file)
                (List.map c_id (contacts file))) as (Hpos & Hseq & Habove).
    set (id := next_rowid (seq_contacts file)
                          (List.map c_id (contacts file))) in *.
    rewrite Forall_forall in Hall.
    constructor; rewrite ?Ec, ?Es, ?Em.
    + rewrite map_app. cbn [List.map c_id]. apply NoDup_snoc; [exact Hnd|].
      intros Hin. specialize (Habove _ Hin). lia.
    + intros r. rewrite in_app_iff. intros [Hin|[<-|[]]].
      * specialize (Hid r Hin). lia.
      * cbn [c_id]. lia.
    + intros m. rewrite in_app_iff. intros [Hin|Hin].
      * specialize (Hown m Hin). lia.
      * destruct (Hall m Hin) as (-> & _). lia.
    + intros m. rewrite in_app_iff. intros [Hin|Hin].
      * apply Hmeth, Hin.
      * apply (Hall m Hin).
    + intros r. rewrite in_app_iff. intros [Hin|[<-|[]]].
      * apply Hname, Hin.
      * cbn [c_name]. split; [apply nonempty_true, Hne | apply strip_trimmed].
    + intros r. rewrite Ec, in_app_iff. intros [Hin|[<-|[]]].
      * apply Hflag, Hin.
      * left. reflexivity.
    + lia.
  - (* Update *)
    destruct (update_contact_effect py_repr id data file)
      as [[E _]|(fields & raw & ms & new & _ & _ & Hne & _ & _ & Hex & _ & _
                 & _ & Ec & Es & Em & Hall)].
    { rewrite E. constructor; assumption. }
    rewrite Forall_forall in Hall.
    apply has_contact_in in Hex as (r0 & Hr0 & Hr0id).
    constructor; rewrite ?Ec, ?Es, ?Em.
    + rewrite map_c_id_preserved by apply set_name_address_id. exact Hnd.
    + intros r. rewrite in_map_iff. intros (r1 & <- & Hin).
      rewrite set_name_address_id. apply Hid, Hin.
    + intros m. rewrite in_app_iff. intros [Hin|Hin].
      * apply filter_In in Hin. apply Hown, Hin.
      * destruct (Hall m Hin) as (-> & _). rewrite <- Hr0id.
        apply Hid, Hr0.
    + intros m. rewrite in_app_iff. intros [Hin|Hin].
      * apply filter_In in Hin. apply Hmeth, Hin.
      * apply (Hall m Hin).
    + intros r. rewrite in_map_iff. intros (r1 & <- & Hin).
      unfold set_name_address. destruct (c_id r1 =? id).
      * cbn [c_name].
        split; [apply nonempty_true, Hne | apply strip_trimmed].
      * apply Hname, Hin.
    + intros r. rewrite Ec, in_map_iff. intros (r1 & <- & Hin).
      unfold set_name_address.
      destruct (c_id r1 =? id); cbn [c_is_favorite]; apply Hflag, Hin.
    + exact Hseq0.
  - (* Delete *)
    rewrite delete_contact_file.
    destruct (int64 id); [|constructor; assumption].
    constructor; cbn [contacts contact_methods seq_contacts]; auto.
    + apply NoDup_map_filter, Hnd.
    + intros r Hin. apply filter_In in Hin. apply Hid, Hin.
    + intros r Hin. apply filter_In in Hin. apply Hname, Hin.
    + intros r Hin. cbn [contacts] in Hin. apply filter_In in Hin.
      apply Hflag, Hin.
  - (* ToggleFavorite *)
    destruct (toggle_favorite_file id file) as [E|(_ & status & Hst & E)];
      rewrite E; [constructor; assumption|].
    constructor; cbn [contacts contact_methods seq_contacts]; auto.
    + rewrite map_c_id_preserved by apply set_favorite_id. exact Hnd.
    + intros r. rewrite in_map_iff. intros (r1 & <- & Hin).
      rewrite set_favorite_id. apply Hid, Hin.
    + intros r. rewrite in_map_iff. intros (r1 & <- & Hin).
      unfold set_favorite. destruct (c_id r1 =? id); cbn [c_name];
        apply Hname, Hin.
    + intros r. cbn [contacts]. rewrite in_map_iff.
      intros (r1 & <- & Hin). unfold set_favorite.
      destruct (c_id r1 =? id); [|apply Hflag, Hin].
      cbn [c_is_favorite]. exact Hst.
  - (* Import *)
    destruct (import_contacts_effect records file)
      as [[_ E]|[(_ & _ & E)|(_ & _ & _ & Ec & Es & new & Em & Hnew)]].
    { rewrite E. constructor; assumption. }
    { rewrite E. constructor; assumption. }
    set (kept := kept_rows records) in *.
    set (first := next_rowid (seq_contacts file)
                             (List.map c_id (contacts file))) in *.
    destruct (next_rowid_above (seq_contacts file)
                (List.map c_id (contacts file))) as (Hpos & Hseq & Habove).
    fold first in Hpos, Hseq, Habove.
    assert (Hs : seq_contacts file
                 <= seq_contacts (snd (import_contacts records file))
                 /\ forall i, first <= i < first + Z.of_nat (List.length kept) ->
                              i <= seq_contacts
                                     (snd (import_contacts records file))).
    { rewrite Es. destruct kept; cbn [List.length]; split; intros; lia. }
    destruct Hs as [Hs Hs'].
    assert (Hnewm : forall m, In m new ->
                      first <= m_contact_id m
                               < first + Z.of_nat (List.length kept)
                      /\ m_method_type m <> [] /\ m_value m <> []).
    { intros m Hin.
      assert (Hm : In (owner_and_pair m) (imported_methods first kept))
        by (rewrite <- Hnew; apply in_map, Hin).
      apply (imported_methods_rows kept first (m_contact_id m)
               (pair_of_method m)), Hm. }
    constructor; rewrite ?Ec, ?Em.
    + rewrite map_app. apply NoDup_app_below; [exact Hnd| |].
      * apply imported_contacts_distinct.
      * intros i j Hi Hj. apply in_map_iff in Hj as (r & <- & Hin).
        apply imported_contacts_rows in Hin. specialize (Habove i Hi). lia.
    + intros r. rewrite in_app_iff. intros [Hin|Hin].
      * specialize (Hid r Hin). lia.
      * apply imported_contacts_rows in Hin as (Hb & _).
        specialize (Hs' _ Hb). lia.
    + intros m. rewrite in_app_iff. intros [Hin|Hin].
      * specialize (Hown m Hin). lia.
      * destruct (Hnewm m Hin) as (Hb & _). specialize (Hs' _ Hb). lia.
    + intros m. rewrite in_app_iff. intros [Hin|Hin].
      * apply Hmeth, Hin.
      * apply (Hnewm m Hin).
    + intros r. rewrite in_app_iff. intros [Hin|Hin].
      * apply Hname, Hin.
      * apply imported_contacts_rows in Hin as (_ & _ & x & Hx & ->).
        unfold kept, kept_rows in Hx. apply filter_In in Hx as [_ Hk].
        split; [apply nonempty_true, Hk | apply strip_trimmed].
    + intros r. rewrite Ec, in_app_iff. intros [Hin|Hin].
      * apply Hflag, Hin.
      * apply imported_contacts_rows in Hin. tauto.
    + lia.
Qed.

(** Every state the service reaches satisfies the invariant. *)
Lemma reachable_well_formed (file : database) :
  reachable py_repr file -> well_formed file.
Proof.
  intros [ops <-]. unfold run.
  pose proof empty_db_well_formed as H0.
  revert H0. generalize empty_db.
  induction ops as [|op ops IH]; intros d Hd; cbn [fold_left]; auto.
  apply IH, perform_well_formed, Hd.
Qed.

(** Every request other than a Delete keeps each method with its
    contact: the methods it adds belong to a contact that is there, and
    it removes no contact. *)
Lemma perform_no_orphans (op : operation) (file : database) :
  (forall id, op <> Delete id) ->
  no_orphans file -> no_orphans (snd (perform py_repr op file)).
Proof.
  intros Hop Hno. unfold no_orphans, has_contact in *.
  destruct op as [data|id data|id|id|records]; cbn [perform].
  - destruct (add_contact_effect py_repr data file)
      as [[E _]|(fields & raw & ms & new & _ & _ & _ & _ & _ & _ & _ & _ & _
                 & Ec & _ & Em & _ & Hown)].
    + rewrite E. exact Hno.
    + intros m. rewrite Ec, Em, in_app_iff, existsb_app.
      intros [Hin|Hin].
      * rewrite (Hno m Hin). reflexivity.
      * rewrite Forall_forall in Hown. destruct (Hown m Hin) as (-> & _).
        cbn [existsb c_id]. rewrite Z.eqb_refl. apply orb_true_r.
  - destruct (update_contact_effect py_repr id data file)
      as [[E _]|(fields & raw & ms & new & _ & _ & _ & _ & _ & Hex & _ & _
                 & _ & Ec & _ & Em & Hown)].
    + rewrite E. exact Hno.
    + intros m. rewrite Ec, Em, in_app_iff.
      rewrite has_contact_map by apply set_name_address_id.
      intros [Hin|Hin].
      * apply filter_In in Hin. apply Hno, Hin.
      * rewrite Forall_forall in Hown. destruct (Hown m Hin) as (-> & _).
        exact Hex.
  - exfalso. exact (Hop id eq_refl).
  - destruct (toggle_favorite_file id file) as [E|(_ & status & _ & E)];
      rewrite E; [exact Hno|].
    cbn [contacts contact_methods]. intros m Hin.
    rewrite has_contact_map by apply set_favorite_id. apply Hno, Hin.
  - destruct (import_contacts_effect records file)
      as [[_ E]|[(_ & _ & E)|(_ & _ & _ & Ec & _ & new & Em & Hnew)]].
    + rewrite E. exact Hno.
    + rewrite E. exact Hno.
    + intros m. rewrite Ec, Em, in_app_iff, existsb_app. intros [Hin|Hin].
      * rewrite (Hno m Hin). reflexivity.
      * assert (Hm : In (owner_and_pair m)
                        (List.map owner_and_pair new))
          by (apply in_map, Hin).
        rewrite Hnew in Hm.
        rewrite (imported_methods_owner _ _ _ _ Hm). apply orb_true_r.
Qed.


End Invariant.

(* ================================================================== *)
(** * Properties of the service *)

(** The row an entry with a text type and a text value is stored as
    carries them as they are. *)
Lemma entry_row_pair (id : Z) (m : json) (row : method_row)
      (p : pystr * pystr) :
  entry_row id m row -> entry_pair m = Some p -> pair_of_method row = p.
Proof.
  intros (fields & ty & v & -> & Lt & Lv & St & Sv & _).
  unfold entry_pair. rewrite Lt, Lv.
  destruct ty as [| | |ty| |]; try discriminate.
  destruct v as [| | |v| |]; try discriminate.
  destruct (nonempty ty && nonempty v); [|discriminate].
  intros H. injection H as <-.
  unfold stored_text, bind_param, bind_text in St, Sv.
  destruct (encodable ty); [|discriminate St].
  destruct (encodable v); [|discriminate Sv].
  cbn [text_not_null] in St, Sv. injection St as St. injection Sv as Sv.
  unfold pair_of_method. rewrite <- St, <- Sv. reflexivity.
Qed.

Lemma entry_rows_complete (id : Z) (ms : list json) (new : list method_row) :
  Forall2 (entry_row id) ms new ->
  forallb complete_entry ms = true ->
  List.map pair_of_method new = complete_pairs ms.
Proof.
  induction 1 as [|m row ms new Hrow _ IH]; [reflexivity|].
  cbn [forallb]. intros H. apply andb_true_iff in H as [Hm Hms].
  cbn [List.map complete_pairs]. unfold complete_entry in Hm.
  destruct (entry_pair m) as [p|] eqn:Ep; [|discriminate Hm].
  rewrite (entry_row_pair id m row p Hrow Ep), (IH Hms). reflexivity.
Qed.

Section ServiceProperties.

Variable py_repr : json -> pystr.

(** X1.  In every state the service reaches the contact ids are
    distinct, positive and at most the last id handed out, and so is the
    contact id every method row names; hence the id the next insert
    gets belongs to no contact and to no method row, not even to one left
    behind by a deleted contact. *)
Theorem reachable_primary_keys (file : database) :
  reachable py_repr file ->
  NoDup (List.map c_id (contacts file))
  /\ (forall r, In r (contacts file) -> 0 < c_id r <= seq_contacts file)
  /\ (forall m, In m (contact_methods file) ->
                0 < m_contact_id m <= seq_contacts file)
  /\ let next := next_rowid (seq_contacts file)
                            (List.map c_id (contacts file)) in
     next = seq_contacts file + 1
     /\ has_contact file next = false
     /\ stored_methods file next = [].
Proof.
  intros Hreach.
  destruct (reachable_well_formed py_repr file Hreach)
    as [Hnd Hid Hown _ _ _ Hseq0].
  split; [exact Hnd|]. split; [exact Hid|]. split; [exact Hown|].
  assert (Hmax : max_rowid (List.map c_id (contacts file))
                 <= seq_contacts file).
  { apply max_rowid_le; [exact Hseq0|].
    intros i Hi. apply in_map_iff in Hi as (r & <- & Hin). apply Hid, Hin. }
  cbn zeta. split; [|split].
  - unfold next_rowid. lia.
  - destruct (has_contact file _) eqn:E; auto.
    apply has_contact_in in E as (r & Hin & E). specialize (Hid r Hin).
    unfold next_rowid in E. lia.
  - unfold stored_methods, select_methods, connect. cbn [work].
    induction (contact_methods file) as [|m l IH]; simpl; auto.
    destruct (m_contact_id m =? _) eqn:E.
    + apply Z.eqb_eq in E. specialize (Hown m (or_introl eq_refl)).
      unfold next_rowid in E. lia.
    + apply IH. intros x Hx. apply Hown. right. exact Hx.
Qed.

(** X2.  In every state the service reaches every stored name is
    trimmed and not empty, every stored method has a non-empty type and
    a non-empty value, and every favorite flag is 0 or 1. *)
Theorem reachable_rows_wellformed (file : database) :
  reachable py_repr file ->
  (forall r, In r (contacts file) ->
             c_name r <> [] /\ strip (c_name r) = c_name r
             /\ (c_is_favorite r = 0 \/ c_is_favorite r = 1))
  /\ (forall m, In m (contact_methods file) ->
                m_method_type m <> [] /\ m_value m <> []).
Proof.
  intros Hreach.
  destruct (reachable_well_formed py_repr file Hreach)
    as [_ _ _ Hmeth Hname Hflag _].
  split.
  - intros r Hin. destruct (Hname r Hin) as [Hn Ht].
    split; [exact Hn|]. split; [exact Ht | apply Hflag, Hin].
  - exact Hmeth.
Qed.

(** X3.  Create writes all or nothing: either the answer is not a 201
    and the file is as it was, or the body is an object with a text
    name and a list of methods, the answer is a 201 that carries the
    trimmed name and the list of the body, and the file has exactly one
    more contact, under an id that no contact had, with that name and
    the address of the answer (the trimmed address of the body when
    that is text, null or missing), not a favorite, and exactly one
    more method row per entry of the body, in order: the row of an
    entry is owned by that contact and holds the texts of its type and
    of its value, neither empty -- for entries with a text type and a
    text value, the type and the value themselves; the existing rows
    stay. *)
Theorem add_contact_all_or_nothing (data : json) (file : database) :
  (snd (add_contact py_repr data file) = file
   /\ snd (fst (add_contact py_repr data file)) <> 201)
  \/ exists fields raw ms v new,
      data = JObj fields
      /\ lookup (lit "name") fields = Some (JStr raw)
      /\ methods_field fields = JArr ms
      /\ fst (add_contact py_repr data file) = (Contact v, 201)
      /\ v_name v = strip raw
      /\ v_methods v = ms
      /\ v_is_favorite v = false
      /\ (address_text_or_null fields = true ->
          v_address v = body_address fields)
      /\ has_contact file (v_id v) = false
      /\ contacts (snd (add_contact py_repr data file))
         = contacts file
           ++ [mk_contact (v_id v) (strip raw) (v_address v) 0]
      /\ contact_methods (snd (add_contact py_repr data file))
         = contact_methods file ++ new
      /\ Forall2 (entry_row (v_id v)) ms new
      /\ Forall (method_of (v_id v)) new
      /\ (forallb complete_entry ms = true ->
          List.map pair_of_method new = complete_pairs ms).
Proof.
  destruct (add_contact_effect py_repr data file)
    as [(E & Hst & _)|(fields & raw & ms & new & -> & Hname & _ & Hms & _ & _
                       & _ & _ & Hr & Ec & _ & Em & Hrows & Hall)];
    [left; auto | right].
  set (id := next_rowid (seq_contacts file) (List.map c_id (contacts file)))
    in *.
  exists fields, raw, ms. eexists. exists new.
  split; [reflexivity|]. split; [exact Hname|]. split; [exact Hms|].
  split; [exact Hr|]. cbn [v_id v_name v_address v_is_favorite v_methods].
  split; [reflexivity|]. split; [reflexivity|]. split; [reflexivity|].
  split; [apply coerce_address_body|]. split.
  - destruct (has_contact file id) eqn:E; auto.
    apply has_contact_in in E as (r & Hin & E).
    destruct (next_rowid_above (seq_contacts file)
                (List.map c_id (contacts file))) as (_ & _ & Habove).
    specialize (Habove (c_id r) (in_map c_id _ _ Hin)). fold id in Habove.
    lia.
  - split; [exact Ec|]. split; [exact Em|]. split; [exact Hrows|].
    split; [exact Hall|]. apply entry_rows_complete with (id := id), Hrows.
Qed.

(** X4.  No request that fails writes: whenever the status of the
    answer is neither 200 nor 201, the file is as it was before the
    request. *)
Theorem perform_failure_leaves_file (op : operation) (file : database) :
  snd (fst (perform py_repr op file)) <> 200 ->
  snd (fst (perform py_repr op file)) <> 201 ->
  snd (perform py_repr op file) = file.
Proof.
  destruct op as [data|id data|id|id|records]; cbn [perform];
    intros H200 H201.
  - destruct (add_contact_effect py_repr data file)
      as [[E _]|(fields & raw & ms & new & _ & _ & _ & _ & _ & _ & _ & _ & Hr
                 & _)]; [exact E|].
    rewrite Hr in H201. cbn [snd] in H201. congruence.
  - destruct (update_contact_effect py_repr id data file)
      as [[E _]|(fields & raw & ms & new & _ & _ & _ & _ & _ & _ & _ & _ & Hr
                 & _)]; [exact E|].
    rewrite Hr in H200. cbn [snd] in H200. congruence.
  - destruct (int64 id) eqn:Hid.
    2:{ rewrite (delete_contact_overflow id file Hid). reflexivity. }
    destruct (has_contact file id) eqn:Hex.
    + rewrite (delete_contact_existing id file Hid Hex) in H200.
      cbn [fst snd] in H200. congruence.
    + rewrite (delete_contact_missing id file Hid Hex). reflexivity.
  - destruct (int64 id) eqn:Hid.
    2:{ rewrite (toggle_favorite_overflow id file Hid). reflexivity. }
    destruct (contact_of file id) as [r|] eqn:Hr.
    + rewrite (toggle_favorite_existing id file r Hid Hr) in H200.
      cbn [fst snd] in H200. congruence.
    + rewrite (toggle_favorite_missing id file Hid
                 (contact_of_none file id Hr)).
      reflexivity.
  - destruct (import_contacts_effect records file)
      as [[_ E]|[(_ & _ & E)|(_ & _ & Hr & _)]];
      [rewrite E; reflexivity | rewrite E; reflexivity |].
    rewrite Hr in H200. cbn [snd] in H200. congruence.
Qed.

(** X5.  Whatever the body, an Update changes neither the ids of the
    contacts, nor their order, nor any favorite flag, nor the id
    sequence, and it leaves every other contact and the methods of every
    other contact as they were. *)
Theorem update_contact_keeps_ids_and_flags
        (id : Z) (data : json) (file : database) :
  let file' := snd (update_contact py_repr id data file) in
  List.map c_id (contacts file') = List.map c_id (contacts file)
  /\ List.map c_is_favorite (contacts file')
     = List.map c_is_favorite (contacts file)
  /\ seq_contacts file' = seq_contacts file
  /\ forall other, other <> id ->
        contact_of file' other = contact_of file other
        /\ stored_methods file' other = stored_methods file other.
Proof.
  cbn zeta.
  destruct (update_contact_effect py_repr id data file)
    as [[E _]|(fields & raw & ms & new & _ & _ & _ & _ & _ & _ & _ & _ & _
               & Ec & Es & Em & Hall)].
  { rewrite E. auto. }
  split; [|split; [|split]].
  - rewrite Ec. apply map_c_id_preserved, set_name_address_id.
  - rewrite Ec, map_map. apply map_ext. intros r. unfold set_name_address.
    destruct (c_id r =? id); reflexivity.
  - exact Es.
  - intros other Hother. split.
    + unfold contact_of. rewrite Ec.
      apply find_set_name_address_other, Hother.
    + unfold stored_methods, select_methods, connect. cbn [work].
      rewrite Em, (filter_other_after_replace id other); auto.
      eapply Forall_impl; [|exact Hall]. intros m Hm. apply Hm.
Qed.

(** X6.  An Update of an id that no contact has never writes and never
    answers 200; when the body passes the checks (a name that is text
    and not empty after trimming, methods that are a list or missing)
    the answer is the not-found error for an id that fits 64 bits, and
    the 500 of an OverflowError for any other id. *)
Theorem update_contact_unknown_id (id : Z) (data : json) (file : database) :
  has_contact file id = false ->
  snd (update_contact py_repr id data file) = file
  /\ snd (fst (update_contact py_repr id data file)) <> 200
  /\ forall fields raw ms,
       data = JObj fields ->
       lookup (lit "name") fields = Some (JStr raw) ->
       nonempty (strip raw) = true ->
       methods_field fields = JArr ms ->
       fst (update_contact py_repr id data file)
       = if int64 id then (Error NoSuchContact, 404)
         else (Unhandled OverflowError, 500).
Proof.
  intros Hex.
  destruct (update_contact_effect py_repr id data file)
    as [(E & Hst & _)|(fields & raw & ms & new & _ & _ & _ & _ & _ & Hex' & _)];
    [|congruence].
  split; [exact E|]. split; [exact Hst|].
  intros fields raw ms -> Hname Hne Hms.
  rewrite (update_contact_checked_missing py_repr id fields raw ms file
             Hname Hne Hms Hex).
  destruct (int64 id); reflexivity.
Qed.

(** X7.  A body whose name is there but is not text (null, a number, a
    list, ...) is not answered with a 400: both Create and Update raise,
    answer 500 and leave the file as it was. *)
Theorem name_not_text_raises
        (fields : list (pystr * json)) (v : json) (id : Z) (file : database) :
  lookup (lit "name") fields = Some v ->
  is_text v = false ->
  add_contact py_repr (JObj fields) file
  = ((Unhandled AttributeError, 500), file)
  /\ update_contact py_repr id (JObj fields) file
     = ((Unhandled AttributeError, 500), file).
Proof.
  intros Hname Htext. unfold add_contact, update_contact.
  rewrite (lookup_some_truthy _ _ _ Hname). cbn [negb py_get].
  rewrite Hname. destruct v; try discriminate Htext; split; reflexivity.
Qed.

(** X8.  A Create whose entries all pass the check (objects with a true
    type and a true value) but one of which holds a type or a value
    that cannot be stored (a list, an object, an integer outside 64
    bits, a text with a lone surrogate) answers 500, and neither the
    contact nor any of its methods is kept. *)
Theorem add_contact_unstorable_method
        (fields : list (pystr * json)) (raw : pystr) (ms : list json)
        (file : database) :
  lookup (lit "name") fields = Some (JStr raw) ->
  nonempty (strip raw) = true ->
  methods_field fields = JArr ms ->
  forallb is_object ms = true ->
  forallb has_type_and_value ms = true ->
  forallb storable_entry ms = false ->
  exists e,
    add_contact py_repr (JObj fields) file = ((Unhandled e, 500), file).
Proof.
  intros Hname Hne Hms Hobj Hval Hst.
  assert (Hnil : ms <> []) by (intros ->; discriminate Hst).
  rewrite (add_contact_checked py_repr fields raw ms file Hname Hne Hms Hnil).
  rewrite (methods_all_valid_objects _ Hobj), Hval. cbn [bind negb].
  destruct (negb _); [exists UnicodeEncodeError; reflexivity|].
  match goal with
  | |- context [insert_all_methods ?c ?i ms] =>
      destruct (insert_all_methods_unstorable i ms c eq_refl Hst)
        as [e ->]
  end.
  exists e. reflexivity.
Qed.

(** X9.  An Update whose methods list holds an entry that is not an
    object (a text, a number, null, a list) is not treated like one with
    incomplete entries: it answers 500, and the name, the address and the
    stored methods of the contact stay as they were. *)
Theorem update_contact_non_object_entry
        (id : Z) (fields : list (pystr * json)) (raw : pystr)
        (ms : list json) (file : database) :
  has_contact file id = true ->
  lookup (lit "name") fields = Some (JStr raw) ->
  nonempty (strip raw) = true ->
  methods_field fields = JArr ms ->
  forallb is_object ms = false ->
  exists e,
    update_contact py_repr id (JObj fields) file = ((Unhandled e, 500), file).
Proof.
  intros Hex Hname Hne Hms Hobj.
  rewrite (update_contact_checked py_repr id fields raw ms file
             Hname Hne Hms).
  rewrite Hex. cbn [negb].
  destruct (negb (int64 id)); [exists OverflowError; reflexivity|].
  destruct (negb _); [exists UnicodeEncodeError; reflexivity|].
  match goal with
  | |- context [insert_wellformed_methods ?c ?i ms] =>
      destruct (insert_wellformed_methods_non_object i ms Hobj c) as [e ->]
  end.
  exists e. reflexivity.
Qed.

(** ** Delete *)

(** X10.  The list of contacts after a Delete with an id that fits 64
    bits is the list before it without the views of that id; every
    other view, with its methods, is untouched.  With any other id the
    list stays as it was. *)
Theorem delete_contact_then_list (id : Z) (file : database) :
  get_contacts (snd (delete_contact id file))
  = if int64 id
    then filter (fun v => negb (v_id v =? id)) (get_contacts file)
    else get_contacts file.
Proof.
  rewrite delete_contact_file. destruct (int64 id); [|reflexivity].
  unfold get_contacts. cbn [connect work contacts].
  apply (filter_map_swap
           (get_contact_with_methods (mk_conn file false))
           (fun r => negb (c_id r =? id))
           (fun v => negb (v_id v =? id))).
  reflexivity.
Qed.

(** X11.  With an id that fits 64 bits, Delete answers 200 exactly when
    a contact with the id exists; afterwards none does, so deleting the
    same id again answers not-found and changes nothing.  With any
    other id Delete answers the 500 of an OverflowError and changes
    nothing. *)
Theorem delete_contact_twice (id : Z) (file : database) :
  let file' := snd (delete_contact id file) in
  if int64 id
  then (fst (delete_contact id file) = (Message Deleted, 200)
        <-> has_contact file id = true)
       /\ has_contact file' id = false
       /\ delete_contact id file' = ((Error NoSuchContact, 404), file')
  else delete_contact id file = ((Unhandled OverflowError, 500), file).
Proof.
  cbn zeta. destruct (int64 id) eqn:Hid;
    [|apply delete_contact_overflow, Hid].
  assert (Hgone : has_contact (snd (delete_contact id file)) id = false).
  { rewrite delete_contact_file, Hid. unfold has_contact. cbn [contacts].
    induction (contacts file) as [|r l IH]; simpl; auto.
    destruct (c_id r =? id) eqn:E; simpl; auto. rewrite E. exact IH. }
  split; [|split; [exact Hgone | apply delete_contact_missing; assumption]].
  destruct (has_contact file id) eqn:Hex.
  - rewrite (delete_contact_existing id file Hid Hex). split; reflexivity.
  - rewrite (delete_contact_missing id file Hid Hex). split; discriminate.
Qed.

(** ** Favorites *)

(** X12.  On an existing contact, under an id that fits 64 bits,
    ToggleFavorite answers 200 with the status that a read shows
    afterwards, and the contact is in the list of favorites afterwards
    exactly when that status is true; no method row is touched.  Under
    any other id it answers the 500 of an OverflowError and changes
    nothing. *)
Theorem toggle_favorite_read_back (id : Z) (file : database) :
  has_contact file id = true ->
  let file' := snd (toggle_favorite id file) in
  if int64 id
  then exists b,
      fst (toggle_favorite id file) = (Favorite b, 200)
      /\ favorite_of file' id = Some b
      /\ (In id (List.map v_id (get_favorites file')) <-> b = true)
      /\ contact_methods file' = contact_methods file
  else toggle_favorite id file = ((Unhandled OverflowError, 500), file).
Proof.
  intros Hex. cbn zeta. destruct (int64 id) eqn:Hint;
    [|apply toggle_favorite_overflow, Hint].
  apply has_contact_find in Hex as [r Hr].
  rewrite (toggle_favorite_existing id file r Hint Hr). cbn [fst snd].
  set (status := if c_is_favorite r =? 1 then 0 else 1).
  assert (Hid : (c_id r =? id) = true)
    by (unfold contact_of in Hr; apply find_some in Hr; apply Hr).
  exists (negb (status =? 0)). split; [reflexivity|]. split; [|split].
  - unfold favorite_of, contact_of. cbn [contacts].
    rewrite find_set_favorite_same. unfold contact_of in Hr. rewrite Hr.
    cbn [option_map]. unfold set_favorite. rewrite Hid. reflexivity.
  - unfold get_favorites. cbn [connect work contacts].
    rewrite map_map. cbn [get_contact_with_methods v_id].
    rewrite in_map_iff. split.
    + intros (x & Hx & Hin). apply filter_In in Hin as [Hin Hfav].
      apply in_map_iff in Hin as (y & <- & Hy).
      unfold set_favorite in Hx, Hfav.
      destruct (c_id y =? id) eqn:E.
      * cbn [c_is_favorite] in Hfav. apply Z.eqb_eq in Hfav. rewrite Hfav.
        reflexivity.
      * apply Z.eqb_neq in E. congruence.
    + intros Hb. exists (set_favorite status id r). split.
      * rewrite set_favorite_id. apply Z.eqb_eq, Hid.
      * apply filter_In. split.
        -- apply in_map. unfold contact_of in Hr. apply find_some in Hr.
           apply Hr.
        -- unfold set_favorite. rewrite Hid. cbn [c_is_favorite].
           unfold status in *. destruct (c_is_favorite r =? 1);
             [discriminate Hb | reflexivity].
  - reflexivity.
Qed.

(** X13.  In a state the service reaches, two ToggleFavorite in a row
    on an existing contact give back the whole file, row for row. *)
Theorem toggle_favorite_twice_restores_file (id : Z) (file : database) :
  reachable py_repr file ->
  has_contact file id = true ->
  snd (toggle_favorite id (snd (toggle_favorite id file))) = file.
Proof.
  intros Hreach Hex.
  destruct (int64 id) eqn:Hint.
  2:{ rewrite (toggle_favorite_overflow id file Hint). cbn [snd].
      rewrite (toggle_favorite_overflow id file Hint). reflexivity. }
  destruct (reachable_well_formed py_repr file Hreach)
    as [Hnd _ _ _ _ Hflag _].
  apply has_contact_find in Hex as [r Hr].
  assert (Hin : In r (contacts file) /\ (c_id r =? id) = true)
    by (unfold contact_of in Hr; apply find_some in Hr; exact Hr).
  destruct Hin as [Hin Hid].
  rewrite (toggle_favorite_existing id file r Hint Hr). cbn [snd].
  set (s1 := if c_is_favorite r =? 1 then 0 else 1).
  assert (Hr1 : contact_of
                  (mk_db (List.map (set_favorite s1 id) (contacts file))
                         (contact_methods file) (seq_contacts file)
                         (seq_contact_methods file)) id
                = Some (set_favorite s1 id r)).
  { unfold contact_of. cbn [contacts]. rewrite find_set_favorite_same.
    unfold contact_of in Hr. rewrite Hr. reflexivity. }
  rewrite (toggle_favorite_existing id _ _ Hint Hr1).
  cbn [snd contacts contact_methods seq_contacts seq_contact_methods].
  assert (Hs2 : (if c_is_favorite (set_favorite s1 id r) =? 1 then 0 else 1)
                = c_is_favorite r).
  { unfold set_favorite. rewrite Hid. cbn [c_is_favorite]. unfold s1.
    destruct (Hflag r Hin) as [-> | ->]; reflexivity. }
  rewrite Hs2, map_map.
  replace (List.map _ (contacts file)) with (contacts file);
    [destruct file; reflexivity|].
  rewrite <- (map_id (contacts file)) at 1. apply map_ext_in.
  intros x Hx. unfold set_favorite at 2.
  destruct (c_id x =? id) eqn:E.
  - unfold set_favorite. cbn [c_id]. rewrite E.
    cbn [c_id c_name c_address].
    assert (x = r).
    { apply (NoDup_map_c_id_inj (contacts file)); auto.
      apply Z.eqb_eq in E, Hid. congruence. }
    subst x. destruct r; reflexivity.
  - unfold set_favorite. rewrite E. reflexivity.
Qed.

(** X14.  In a state the service reaches, the list of favorites is the
    list of contacts restricted to the views that say favorite, in the
    same order. *)
Theorem get_favorites_of_list (file : database) :
  reachable py_repr file ->
  get_favorites file = filter v_is_favorite (get_contacts file).
Proof.
  intros Hreach.
  pose proof (wf_flags _ (reachable_well_formed py_repr file Hreach)) as Hflag.
  unfold get_favorites, get_contacts. cbn [connect work].
  rewrite <- (filter_map_swap
                (get_contact_with_methods (mk_conn file false))
                (fun r => negb (c_is_favorite r =? 0))
                v_is_favorite) by reflexivity.
  f_equal. apply filter_ext_in. intros r Hin.
  destruct (Hflag r Hin) as [-> | ->]; reflexivity.
Qed.

(** ** Import: the header *)

Lemma has_required_fields_iff (names : list pystr) :
  has_required_fields names = true
  <-> forall c, In c required_fields -> In c names.
Proof.
  unfold has_required_fields. rewrite forallb_forall.
  split; intros H c Hc; specialize (H c Hc).
  - apply existsb_exists in H as (x & Hx & E). apply eqb_eq in E. subst.
    exact Hx.
  - apply existsb_exists. exists c. split; [exact H | apply eqb_eq; reflexivity].
Qed.

(** X15.  An import whose header lacks one of the four required
    columns is answered with the 400 for missing columns, whatever else
    the upload holds, and nothing is written. *)
Theorem import_contacts_missing_column
        (records : list (list pystr)) (file : database) (c : pystr) :
  In c required_fields ->
  ~ In c (fieldnames records) ->
  import_contacts records file = ((Error MissingColumns, 400), file).
Proof.
  intros Hc Hmiss.
  destruct (import_contacts_effect records file)
    as [[_ E]|[(E & _)|(E & _)]]; [exact E| |];
    exfalso; apply Hmiss;
    exact (proj1 (has_required_fields_iff _) E c Hc).
Qed.

(** ** Reading back what was written *)

(** X16.  In a state the service reaches, after a Create on a valid
    body of the data model (a text name that is not empty after
    trimming, an address that is text, null or missing, a non-empty
    list of entries each with a text type and a text value that are not
    empty, all texts free of lone surrogates) the list of contacts is
    the list before it followed by one view: the id of the answer, the
    trimmed name and the trimmed address of the body (null where it has
    none), not a favorite, and as methods the entries of the body as
    type/value pairs -- no method of an earlier, deleted contact shows
    up under the new id. *)
Theorem add_contact_then_list
        (fields : list (pystr * json)) (raw : pystr) (ms : list json)
        (file : database) :
  reachable py_repr file ->
  lookup (lit "name") fields = Some (JStr raw) ->
  nonempty (strip raw) = true ->
  encodable raw = true ->
  address_text_or_null fields = true ->
  encodable_option (body_address fields) = true ->
  methods_field fields = JArr ms ->
  ms <> [] ->
  forallb complete_entry ms = true ->
  forallb encodable_entry ms = true ->
  exists v file',
    add_contact py_repr (JObj fields) file = ((Contact v, 201), file')
    /\ get_contacts file'
       = get_contacts file
         ++ [mk_view (v_id v) (strip raw) (body_address fields) false
                     (List.map entry_dict (complete_pairs ms))].
Proof.
  intros Hreach Hname Hne Hraw Haddr Henc Hms Hnil Hall Hcod.
  destruct (reachable_well_formed py_repr file Hreach)
    as [_ Hid Hown _ _ _ _].
  pose proof (coerce_address_body py_repr fields Haddr) as Hca.
  assert (Ha : encodable_option (coerce_address py_repr (address_field fields))
               = true) by (rewrite Hca; exact Henc).
  destruct (add_contact_complete py_repr fields raw ms file Hname Hne Hms
              Hnil Hall Hcod (encodable_strip raw Hraw) Ha)
    as (new & seq' & -> & Hmap & Hnew).
  rewrite Hca.
  set (id := next_rowid (seq_contacts file) (List.map c_id (contacts file)))
    in *.
  destruct (next_rowid_above (seq_contacts file)
              (List.map c_id (contacts file))) as (_ & Hseq & Habove).
  fold id in Hseq, Habove.
  do 2 eexists. split; [reflexivity|].
  unfold get_contacts. cbn [connect work contacts]. rewrite map_app.
  cbn [List.map v_id v_name v_address]. f_equal.
  - apply map_ext_in. intros r Hin.
    change (mk_conn ?d false) with (connect d). rewrite !read_view.
    f_equal. f_equal. unfold stored_methods, select_methods, connect.
    cbn [work contact_methods]. rewrite filter_app.
    rewrite (filter_owner_none (c_id r) new), app_nil_r; [reflexivity|].
    intros m Hm. rewrite Forall_forall in Hnew. rewrite (Hnew m Hm).
    specialize (Habove (c_id r) (in_map c_id _ _ Hin)). lia.
  - f_equal. change (mk_conn ?d false) with (connect d). rewrite read_view.
    cbn [c_id c_name c_address c_is_favorite]. f_equal. f_equal.
    unfold stored_methods, select_methods, connect.
    cbn [work contact_methods]. rewrite filter_app.
    rewrite (filter_owner_none id (contact_methods file)).
    + cbn [app]. rewrite (filter_owner_all id new Hnew). exact Hmap.
    + intros m Hm. specialize (Hown m Hm). lia.
Qed.

(** Update on a body of the data model whose texts can all be bound, in
    full. *)
Lemma update_contact_entries
      (id : Z) (fields : list (pystr * json)) (raw : pystr)
      (ms : list json) (file : database) :
  int64 id = true ->
  has_contact file id = true ->
  lookup (lit "name") fields = Some (JStr raw) ->
  nonempty (strip raw) = true ->
  methods_field fields = JArr ms ->
  forallb method_entry ms = true ->
  encodable (strip raw) = true ->
  let address := coerce_address py_repr (address_field fields) in
  encodable_option address = true ->
  forallb encodable_entry ms = true ->
  exists new seq',
    update_contact py_repr id (JObj fields) file
    = ((Contact (mk_view id (strip raw) address true ms), 200),
       mk_db (List.map (set_name_address (strip raw) address id)
                       (contacts file))
             (filter (fun m => negb (m_contact_id m =? id))
                     (contact_methods file) ++ new)
             (seq_contacts file) seq')
    /\ List.map pair_of_method new = complete_pairs ms
    /\ Forall (fun m => m_contact_id m = id) new.
Proof.
  intros Hint Hex Hname Hne Hms Hall Hn address Ha Hcod.
  rewrite (update_contact_found py_repr id fields raw ms file
             Hname Hne Hms Hint Hex Hn Ha).
  fold address.
  set (c2 := mk_conn _ false).
  destruct (insert_wellformed_methods_entries id ms c2 eq_refl Hall Hcod)
    as (new & seq' & Hrun & Hmap & Hown).
  rewrite Hrun. cbn [bind serve commit work].
  exists new, seq'. auto.
Qed.

(** The list of contacts after such an Update. *)
Lemma update_contact_entries_list
      (id : Z) (fields : list (pystr * json)) (raw : pystr)
      (ms : list json) (file : database) :
  int64 id = true ->
  has_contact file id = true ->
  lookup (lit "name") fields = Some (JStr raw) ->
  nonempty (strip raw) = true ->
  methods_field fields = JArr ms ->
  forallb method_entry ms = true ->
  encodable (strip raw) = true ->
  let address := coerce_address py_repr (address_field fields) in
  encodable_option address = true ->
  forallb encodable_entry ms = true ->
  fst (update_contact py_repr id (JObj fields) file)
  = (Contact (mk_view id (strip raw) address true ms), 200)
  /\ has_contact (snd (update_contact py_repr id (JObj fields) file)) id
     = true
  /\ get_contacts (snd (update_contact py_repr id (JObj fields) file))
     = List.map
         (fun w => if v_id w =? id
                   then mk_view id (strip raw) address (v_is_favorite w)
                                (List.map entry_dict (complete_pairs ms))
                   else w)
         (get_contacts file).
Proof.
  intros Hint Hex Hname Hne Hms Hall Hn address Ha Hcod.
  destruct (update_contact_entries id fields raw ms file
              Hint Hex Hname Hne Hms Hall Hn Ha Hcod)
    as (new & seq' & -> & Hmap & Hown).
  fold address. cbn [fst snd]. split; [reflexivity|]. split.
  - unfold has_contact. cbn [contacts].
    rewrite has_contact_map by apply set_name_address_id. exact Hex.
  - unfold get_contacts. cbn [connect work contacts]. rewrite !map_map.
    apply map_ext. intros r.
    change (mk_conn ?d false) with (connect d). rewrite !read_view.
    rewrite set_name_address_id. cbn [v_id v_is_favorite].
    unfold stored_methods, select_methods, connect. cbn [work contact_methods].
    unfold set_name_address. destruct (c_id r =? id) eqn:E.
    + apply Z.eqb_eq in E. cbn [c_id c_name c_address c_is_favorite].
      rewrite E, (filter_owner_after_replace id _ _ Hown), <- Hmap. reflexivity.
    + apply Z.eqb_neq in E.
      rewrite (filter_other_after_replace id (c_id r) _ _ E Hown).
      reflexivity.
Qed.

(** On an existing contact and a body of the data model, an Update that
    cannot bind the id or one of the texts answers 500 and writes
    nothing. *)
Lemma update_contact_entries_total
      (id : Z) (fields : list (pystr * json)) (raw : pystr)
      (ms : list json) (file : database) :
  has_contact file id = true ->
  lookup (lit "name") fields = Some (JStr raw) ->
  nonempty (strip raw) = true ->
  methods_field fields = JArr ms ->
  forallb method_entry ms = true ->
  (exists e,
      update_contact py_repr id (JObj fields) file
      = ((Unhandled e, 500), file))
  \/ (int64 id = true
      /\ encodable (strip raw) = true
      /\ encodable_option (coerce_address py_repr (address_field fields))
         = true
      /\ forallb encodable_entry ms = true).
Proof.
  intros Hex Hname Hne Hms Hall.
  rewrite (update_contact_checked py_repr id fields raw ms file
             Hname Hne Hms).
  rewrite Hex. cbn [negb].
  destruct (int64 id); cbn [negb]; [|left; eexists; reflexivity].
  destruct (encodable (strip raw)); cbn [andb negb];
    [|left; eexists; reflexivity].
  destruct (encodable_option _); cbn [negb]; [|left; eexists; reflexivity].
  destruct (forallb encodable_entry ms) eqn:Hcod; [right; auto|].
  left.
  match goal with
  | |- context [insert_wellformed_methods ?c ?i ms] =>
      destruct (insert_wellformed_methods_unencodable i ms c eq_refl Hall Hcod)
        as [e ->]
  end.
  exists e. reflexivity.
Qed.

(** X17.  After an Update on an existing contact (an id that fits 64
    bits) with a body of the data model (a text name that is not empty
    after trimming, an address that is text, null or missing, entries
    that are objects whose type and value are text, null or missing,
    all texts free of lone surrogates) the list of contacts differs
    from the list before it only in the views of that id: they get the
    trimmed name and the trimmed address of the body (null where it has
    none) and, as methods, its complete entries as type/value pairs,
    while their favorite status is the one they had; every other view
    is untouched. *)
Theorem update_contact_then_list
        (id : Z) (fields : list (pystr * json)) (raw : pystr)
        (ms : list json) (file : database) :
  int64 id = true ->
  has_contact file id = true ->
  lookup (lit "name") fields = Some (JStr raw) ->
  nonempty (strip raw) = true ->
  encodable raw = true ->
  address_text_or_null fields = true ->
  encodable_option (body_address fields) = true ->
  methods_field fields = JArr ms ->
  forallb method_entry ms = true ->
  forallb encodable_entry ms = true ->
  get_contacts (snd (update_contact py_repr id (JObj fields) file))
  = List.map
      (fun w => if v_id w =? id
                then mk_view id (strip raw) (body_address fields)
                       (v_is_favorite w)
                       (List.map entry_dict (complete_pairs ms))
                else w)
      (get_contacts file).
Proof.
  intros Hint Hex Hname Hne Hraw Haddr Henc Hms Hall Hcod.
  pose proof (coerce_address_body py_repr fields Haddr) as Hca.
  assert (Ha : encodable_option (coerce_address py_repr (address_field fields))
               = true) by (rewrite Hca; exact Henc).
  rewrite <- Hca.
  apply (update_contact_entries_list id fields raw ms file
           Hint Hex Hname Hne Hms Hall (encodable_strip raw Hraw) Ha Hcod).
Qed.

(** X18.  Update is idempotent for the reader: sending the same body of
    the data model a second time gives the same answer and the same list
    of contacts as after the first time. *)
Theorem update_contact_twice
        (id : Z) (fields : list (pystr * json)) (raw : pystr)
        (ms : list json) (file : database) :
  has_contact file id = true ->
  lookup (lit "name") fields = Some (JStr raw) ->
  nonempty (strip raw) = true ->
  methods_field fields = JArr ms ->
  forallb method_entry ms = true ->
  let once := update_contact py_repr id (JObj fields) file in
  let twice := update_contact py_repr id (JObj fields) (snd once) in
  fst twice = fst once
  /\ get_contacts (snd twice) = get_contacts (snd once).
Proof.
  intros Hex Hname Hne Hms Hall. cbn zeta.
  destruct (update_contact_entries_total id fields raw ms file
              Hex Hname Hne Hms Hall) as [[e E]|(Hint & Hn & Ha & Hcod)].
  { rewrite E. cbn [snd]. rewrite E. split; reflexivity. }
  destruct (update_contact_entries_list id fields raw ms file
              Hint Hex Hname Hne Hms Hall Hn Ha Hcod) as (Ha1 & Hex1 & Hl1).
  destruct (update_contact_entries_list id fields raw ms _
              Hint Hex1 Hname Hne Hms Hall Hn Ha Hcod) as (Ha2 & _ & Hl2).
  split; [congruence|].
  rewrite Hl2, Hl1, map_map. apply map_ext. intros w.
  destruct (v_id w =? id) eqn:E; cbn [v_id v_is_favorite]; rewrite ?E.
  - rewrite Z.eqb_refl. reflexivity.
  - reflexivity.
Qed.

(** ** The list after an import *)

Lemma select_by_owner_pairs (id : Z) (l : list method_row) :
  List.map pair_of_method (filter (fun m => m_contact_id m =? id) l)
  = List.map snd (filter (fun op => fst op =? id)
                         (List.map owner_and_pair l)).
Proof.
  induction l as [|m l IH]; simpl; auto.
  destruct (m_contact_id m =? id); simpl; rewrite IH; reflexivity.
Qed.

Lemma filter_fst_none (id : Z) (l : list (Z * (pystr * pystr))) :
  (forall op, In op l -> fst op <> id) ->
  filter (fun op => fst op =? id) l = [].
Proof.
  induction l as [|op l IH]; simpl; auto.
  intros H. destruct (fst op =? id) eqn:E.
  - apply Z.eqb_eq in E. exfalso. exact (H op (or_introl eq_refl) E).
  - apply IH. intros x Hx. apply H. right. exact Hx.
Qed.

Lemma filter_fst_all (id : Z) (ps : list (pystr * pystr)) :
  List.map snd (filter (fun op => fst op =? id) (List.map (pair id) ps)) = ps.
Proof.
  induction ps as [|p ps IH]; simpl; auto.
  rewrite Z.eqb_refl. simpl. rewrite IH. reflexivity.
Qed.

(** The views of the imported contacts, read from a method table that
    holds their methods after rows of smaller owners. *)
Lemma imported_views_read (rs : list row) :
  forall (first : Z) (pre : list (Z * (pystr * pystr))),
    (forall op, In op pre -> fst op < first) ->
    List.map
      (fun r =>
         mk_view (c_id r) (c_name r) (c_address r)
                 (negb (c_is_favorite r =? 0))
                 (List.map entry_dict
                    (List.map snd
                       (filter (fun op => fst op =? c_id r)
                               (pre ++ imported_methods first rs)))))
      (imported_contacts first rs)
    = imported_views first rs.
Proof.
  induction rs as [|x rs IH]; intros first pre Hpre;
    cbn [imported_contacts imported_methods imported_views List.map];
    [reflexivity|].
  f_equal.
  - cbn [row_contact c_id c_name c_address c_is_favorite]. f_equal.
    f_equal. rewrite !filter_app, !map_app.
    rewrite (filter_fst_none first pre)
      by (intros op Hop; specialize (Hpre op Hop); lia).
    rewrite (filter_fst_none first (imported_methods (first + 1) rs)).
    + cbn [List.map app]. rewrite app_nil_r. apply filter_fst_all.
    + intros [o p] Hop. apply imported_methods_rows in Hop. cbn [fst]. lia.
  - rewrite app_assoc. apply IH.
    intros op. rewrite in_app_iff, in_map_iff.
    intros [Hop|(p & <- & _)]; [specialize (Hpre op Hop); lia | cbn [fst]; lia].
Qed.

(** X19.  In a state the service reaches, after an accepted import
    whose kept rows hold no lone surrogate (every decoded upload is
    such) the list of contacts is the list before it followed by one
    view per kept row, in file order: trimmed name, trimmed address
    (null when empty), not a favorite, and as methods the non-empty
    trimmed phone, e-mail and address of that row, in this order.  When
    a kept row holds a lone surrogate the list stays as it was. *)
Theorem import_contacts_then_list
        (records : list (list pystr)) (file : database) :
  reachable py_repr file ->
  has_required_fields (fieldnames records) = true ->
  get_contacts (snd (import_contacts records file))
  = if forallb row_encodable (kept_rows records)
    then get_contacts file
         ++ imported_views
              (next_rowid (seq_contacts file) (List.map c_id (contacts file)))
              (kept_rows records)
    else get_contacts file.
Proof.
  intros Hreach Hreq.
  destruct (reachable_well_formed py_repr file Hreach)
    as [_ Hid Hown _ _ _ _].
  destruct (import_contacts_effect records file)
    as [[E _]|[(_ & Hbad & E)|(_ & Hok & _ & Ec & _ & new & Em & Hnew)]];
    [congruence | rewrite Hbad, E; reflexivity | rewrite Hok].
  set (kept := kept_rows records) in *.
  set (first := next_rowid (seq_contacts file)
                           (List.map c_id (contacts file))) in *.
  destruct (next_rowid_above (seq_contacts file)
              (List.map c_id (contacts file))) as (_ & Hseq & Habove).
  fold first in Hseq, Habove.
  unfold get_contacts. cbn [connect work]. rewrite Ec, map_app. f_equal.
  - apply map_ext_in. intros r Hin.
    change (mk_conn ?d false) with (connect d). rewrite !read_view.
    f_equal. f_equal. unfold stored_methods, select_methods, connect.
    cbn [work]. rewrite Em, filter_app.
    rewrite (filter_owner_none (c_id r) new), app_nil_r; [reflexivity|].
    intros m Hm.
    assert (Hop : In (owner_and_pair m) (imported_methods first kept))
      by (rewrite <- Hnew; apply in_map, Hm).
    apply (imported_methods_rows kept first (m_contact_id m)) in Hop.
    specialize (Habove (c_id r) (in_map c_id _ _ Hin)). lia.
  - rewrite <- (imported_views_read kept first
                  (List.map owner_and_pair (contact_methods file))).
    + apply map_ext. intros r.
      change (mk_conn ?d false) with (connect d). rewrite read_view.
      f_equal. f_equal. unfold stored_methods, select_methods, connect.
      cbn [work]. rewrite Em, select_by_owner_pairs, map_app, Hnew.
      reflexivity.
    + intros op Hop. apply in_map_iff in Hop as (m & <- & Hm).
      specialize (Hown m Hm). cbn [owner_and_pair fst]. lia.
Qed.

End ServiceProperties.

(* ================================================================== *)
(** * The properties on the sample data *)

Module Witness.

Import Sample Cases.






(** The padded upload: two contacts, Alice with three methods, Bob with
    one; the row whose name is white space is skipped. *)
Lemma import_contacts_rows_witness :
  decoded padded_upload = true
  /\ has_required_fields (fieldnames padded_upload) = true
  /\ exists file',
       import_contacts padded_upload empty_db = ((Imported 2, 200), file')
       /\ contacts file' =
          [mk_contact 1 (lit "Alice") (Some (lit "1 Main St")) 0;
           mk_contact 2 (lit "Bob") None 0]
       /\ List.map owner_and_pair (contact_methods file') =
          [(1, (lit "phone", lit "555-1111"));
           (1, (lit "email", lit "a@x.com"));
           (1, (lit "address", lit "1 Main St"));
           (2, (lit "email", lit "b@x.com"))].
Proof.
  split; [reflexivity|]. split; [reflexivity|].
  exact (import_contacts_rows padded_upload empty_db eq_refl eq_refl).
Defined.


(** The answer of an Update carries the incomplete entry that the
    store does not. *)
Lemma update_contact_echoes_methods_witness :
  update_contact no_repr 1 rename_with_methods with_ann
  = ((Contact (mk_view 1 (lit "Ann Lee") None true
                       [broken_entry; phone_entry]), 200),
     mk_db [mk_contact 1 (lit "Ann Lee") None 0]
           [mk_method 2 1 (lit "phone") (lit "555-1111")] 1 2)
  /\ exists fields,
       rename_with_methods = JObj fields
       /\ methods_field fields = JArr [broken_entry; phone_entry].
Proof.
  split; [reflexivity|].
  exact (update_contact_echoes_methods no_repr 1 rename_with_methods
           with_ann _ _ 200 eq_refl).
Defined.

End Witness.

(** Requests on which the description of the interface does not hold
    as it is worded. *)
Module Counterexamples.

Import Sample Cases.






End Counterexamples.

(* ================================================================== *)
(** * The properties of the service on the sample data *)

Module CaseChecks.

Import Sample Cases.

Lemma after_delete_reachable : reachable no_repr after_delete.
Proof. exists [Create ann; Delete 1]. reflexivity. Defined.

Lemma with_favorite_reachable : reachable no_repr with_favorite.
Proof. exists [Create ann; ToggleFavorite 1]. reflexivity. Defined.

(** After Ann was deleted, id 1 is still the last id handed out. *)
Lemma reachable_primary_keys_witness :
  reachable no_repr after_delete
  /\ next_rowid (seq_contacts after_delete)
                (List.map c_id (contacts after_delete))
     = seq_contacts after_delete + 1
  /\ stored_methods after_delete 2 = [].
Proof.
  split; [exact after_delete_reachable|].
  pose proof (reachable_primary_keys no_repr after_delete
                after_delete_reachable) as (_ & _ & _ & H1 & _ & H3).
  exact (conj H1 H3).
Defined.

Lemma reachable_rows_wellformed_witness :
  reachable no_repr with_favorite
  /\ forall r, In r (contacts with_favorite) ->
               c_name r <> [] /\ strip (c_name r) = c_name r
               /\ (c_is_favorite r = 0 \/ c_is_favorite r = 1).
Proof.
  split; [exact with_favorite_reachable|].
  exact (proj1 (reachable_rows_wellformed no_repr with_favorite
                  with_favorite_reachable)).
Defined.

(** A Delete of an id nobody has. *)
Lemma perform_failure_leaves_file_witness :
  snd (fst (perform no_repr (Delete 7) with_ann)) = 404
  /\ snd (perform no_repr (Delete 7) with_ann) = with_ann.
Proof.
  split; [reflexivity|].
  apply (perform_failure_leaves_file no_repr (Delete 7) with_ann);
    vm_compute; discriminate.
Defined.

Lemma update_contact_unknown_id_witness :
  has_contact with_ann 7 = false
  /\ snd (update_contact no_repr 7 (JObj rename_fields) with_ann) = with_ann
  /\ fst (update_contact no_repr 7 (JObj rename_fields) with_ann)
     = (Error NoSuchContact, 404)
  /\ fst (update_contact no_repr (2 ^ 63) (JObj rename_fields) with_ann)
     = (Unhandled OverflowError, 500).
Proof.
  split; [reflexivity|].
  pose proof (update_contact_unknown_id no_repr 7 (JObj rename_fields)
                with_ann eq_refl) as (H1 & _ & H3).
  pose proof (update_contact_unknown_id no_repr (2 ^ 63) (JObj rename_fields)
                with_ann eq_refl) as (_ & _ & H4).
  split; [exact H1|]. split.
  - exact (H3 rename_fields (lit "Ann Lee") [broken_entry; phone_entry]
              eq_refl eq_refl eq_refl eq_refl).
  - exact (H4 rename_fields (lit "Ann Lee") [broken_entry; phone_entry]
              eq_refl eq_refl eq_refl eq_refl).
Defined.

Lemma name_not_text_raises_witness :
  add_contact no_repr (JObj null_name_fields) with_ann
  = ((Unhandled AttributeError, 500), with_ann)
  /\ update_contact no_repr 1 (JObj null_name_fields) with_ann
     = ((Unhandled AttributeError, 500), with_ann).
Proof.
  exact (name_not_text_raises no_repr null_name_fields JNull 1 with_ann
           eq_refl eq_refl).
Defined.

Lemma add_contact_unstorable_method_witness :
  exists e,
    add_contact no_repr (JObj list_typed_fields) with_ann
    = ((Unhandled e, 500), with_ann).
Proof.
  exact (add_contact_unstorable_method no_repr list_typed_fields (lit "Bob")
           [phone_entry; list_typed_entry] with_ann
           eq_refl eq_refl eq_refl eq_refl eq_refl eq_refl).
Defined.

Lemma update_contact_non_object_entry_witness :
  exists e,
    update_contact no_repr 1 (JObj text_entry_fields) with_ann
    = ((Unhandled e, 500), with_ann).
Proof.
  exact (update_contact_non_object_entry no_repr 1 text_entry_fields
           (lit "Ann Lee") [phone_entry; JStr (lit "555-2222")] with_ann
           eq_refl eq_refl eq_refl eq_refl eq_refl).
Defined.

Lemma toggle_favorite_read_back_witness :
  has_contact with_ann 1 = true
  /\ exists b,
       fst (toggle_favorite 1 with_ann) = (Favorite b, 200)
       /\ favorite_of (snd (toggle_favorite 1 with_ann)) 1 = Some b
       /\ (In 1 (List.map v_id (get_favorites
                                  (snd (toggle_favorite 1 with_ann))))
           <-> b = true)
       /\ contact_methods (snd (toggle_favorite 1 with_ann))
          = contact_methods with_ann.
Proof.
  split; [reflexivity|].
  exact (toggle_favorite_read_back 1 with_ann eq_refl).
Defined.

Lemma toggle_favorite_twice_restores_file_witness :
  reachable no_repr with_favorite
  /\ snd (toggle_favorite 1 (snd (toggle_favorite 1 with_favorite)))
     = with_favorite.
Proof.
  split; [exact with_favorite_reachable|].
  exact (toggle_favorite_twice_restores_file no_repr 1 with_favorite
           with_favorite_reachable eq_refl).
Defined.

Lemma get_favorites_of_list_witness :
  reachable no_repr with_favorite
  /\ get_favorites with_favorite
     = filter v_is_favorite (get_contacts with_favorite).
Proof.
  split; [exact with_favorite_reachable|].
  exact (get_favorites_of_list no_repr with_favorite with_favorite_reachable).
Defined.

Lemma import_contacts_missing_column_witness :
  import_contacts short_header with_ann
  = ((Error MissingColumns, 400), with_ann).
Proof.
  apply (import_contacts_missing_column short_header with_ann col_address).
  - simpl. auto.
  - simpl. intros [H|[H|[H|[]]]]; discriminate H.
Defined.

(** Bob is created after Ann was deleted: he gets id 2 and only his own
    method. *)
Lemma add_contact_then_list_witness :
  reachable no_repr after_delete
  /\ exists v file',
       add_contact no_repr (JObj bob_fields) after_delete
       = ((Contact v, 201), file')
       /\ get_contacts file'
          = get_contacts after_delete
            ++ [mk_view (v_id v) (lit "Bob") None false
                  [entry_dict (lit "email", lit "b@x.com")]].
Proof.
  split; [exact after_delete_reachable|].
  exact (add_contact_then_list no_repr bob_fields (lit "Bob") _ after_delete
           after_delete_reachable eq_refl eq_refl eq_refl eq_refl eq_refl
           eq_refl (fun H => nil_cons (eq_sym H)) eq_refl eq_refl).
Defined.

Lemma update_contact_then_list_witness :
  get_contacts (snd (update_contact no_repr 1 (JObj move_fields) with_ann))
  = [mk_view 1 (lit "Ann Lee") (Some (lit "2 Side St")) false
       [entry_dict (lit "phone", lit "555-1111")]].
Proof.
  exact (update_contact_then_list no_repr 1 move_fields (lit " Ann Lee ")
           [broken_entry; phone_entry] with_ann
           eq_refl eq_refl eq_refl eq_refl eq_refl eq_refl eq_refl eq_refl
           eq_refl eq_refl).
Defined.

Lemma update_contact_twice_witness :
  let once := update_contact no_repr 1 (JObj rename_fields) with_ann in
  let twice := update_contact no_repr 1 (JObj rename_fields) (snd once) in
  fst twice = fst once /\ get_contacts (snd twice) = get_contacts (snd once).
Proof.
  exact (update_contact_twice no_repr 1 rename_fields (lit "Ann Lee")
           [broken_entry; phone_entry] with_ann
           eq_refl eq_refl eq_refl eq_refl eq_refl).
Defined.

(** The upload of the sample after Ann was deleted: Alice and Bob get
    the ids 2 and 3. *)
Lemma import_contacts_then_list_witness :
  reachable no_repr after_delete
  /\ get_contacts (snd (import_contacts upload after_delete))
     = [mk_view 2 (lit "Alice") (Some (lit "1 Main St")) false
          [entry_dict (lit "phone", lit "555-1111");
           entry_dict (lit "email", lit "a@x.com");
           entry_dict (lit "address", lit "1 Main St")];
        mk_view 3 (lit "Bob") None false
          [entry_dict (lit "email", lit "b@x.com")]].
Proof.
  split; [exact after_delete_reachable|].
  exact (import_contacts_then_list no_repr upload after_delete
           after_delete_reachable eq_refl).
Defined.

End CaseChecks.
